(** * Kwentuhang Pinoy Fund: viewer metrics and admin mutation protocol

    A shallow embedding of the two pages of the application: the public
    viewer ([HomePage], with its [clamp] and [stats]) and the admin panel
    ([AdminPage], with [refreshAuth], [loadGroups] and [savePaidWeeks]).

    Numbers.  A JavaScript number is modelled as [num]: an exact rational, the
    two infinities, or NaN.  Rounding of IEEE-754 doubles is abstracted away
    (every finite result is the exact rational), and the two zeros are
    identified: they compare equal, are both falsy and both print as [0].
    The statements about the pages are therefore kept to what does not depend
    on rounding or overflow: comparisons, the propagation of NaN, sums taken
    in the order in which the code takes them.  Where the rounding of a
    quotient or a product decides a property, the expression is evaluated on
    binary64 numbers, in module [Binary64].

    Rows.  The rows come from a JSON response that is cast, unchecked, to
    [GroupRow[]]; the numeric columns are therefore kept as JavaScript values
    ([jsval]), so that a missing ([null], [undefined]) or mistyped column can
    be expressed. *)

From Stdlib Require Import List Bool String Ascii ZArith QArith Qcanon Qround
  SpecFloat Lia.
Import ListNotations.

Local Open Scope Z_scope.

(** ** JavaScript numbers *)

Module JS.

Inductive num : Type :=
| NaN
| NInf
| Fin (q : Qc)
| PInf.

Definition of_Z (z : Z) : num := Fin (Q2Qc (inject_Z z)).

Definition zero : num := Fin 0%Qc.

Definition Qc_eqb (a b : Qc) : bool :=
  match (a ?= b)%Qc with Eq => true | _ => false end.

Definition Qc_ltb (a b : Qc) : bool :=
  match (a ?= b)%Qc with Lt => true | _ => false end.

Definition Qc_leb (a b : Qc) : bool :=
  match (a ?= b)%Qc with Gt => false | _ => true end.

Definition is_nan (a : num) : bool :=
  match a with NaN => true | _ => false end.

Definition is_zero (a : num) : bool :=
  match a with Fin q => Qc_eqb q 0%Qc | _ => false end.

(** [a < b]: false as soon as one side is NaN. *)
Definition lt (a b : num) : bool :=
  match a, b with
  | NaN, _ | _, NaN => false
  | NInf, NInf => false
  | NInf, _ => true
  | _, NInf => false
  | PInf, _ => false
  | Fin _, PInf => true
  | Fin p, Fin q => Qc_ltb p q
  end.

(** [a <= b]: false as soon as one side is NaN. *)
Definition le (a b : num) : bool :=
  match a, b with
  | NaN, _ | _, NaN => false
  | NInf, _ => true
  | _, PInf => true
  | PInf, _ => false
  | Fin _, NInf => false
  | Fin p, Fin q => Qc_leb p q
  end.

(** [a > b] and [a >= b]. *)
Definition gt (a b : num) : bool := lt b a.
Definition ge (a b : num) : bool := le b a.

(** Sign of a number that is not NaN: [Lt] negative, [Eq] zero, [Gt] positive. *)
Definition sign (a : num) : comparison :=
  match a with
  | NaN => Eq
  | NInf => Lt
  | PInf => Gt
  | Fin q => (q ?= 0)%Qc
  end.

Definition inf_of (s : comparison) : num :=
  match s with Lt => NInf | Gt => PInf | Eq => NaN end.

Definition sign_mul (s t : comparison) : comparison :=
  match s, t with
  | Eq, _ | _, Eq => Eq
  | Lt, Lt | Gt, Gt => Gt
  | _, _ => Lt
  end.

(** [a + b] *)
Definition add (a b : num) : num :=
  match a, b with
  | NaN, _ | _, NaN => NaN
  | PInf, NInf | NInf, PInf => NaN
  | PInf, _ | _, PInf => PInf
  | NInf, _ | _, NInf => NInf
  | Fin p, Fin q => Fin (p + q)%Qc
  end.

(** [a * b]: an infinity times zero is NaN. *)
Definition mul (a b : num) : num :=
  match a, b with
  | NaN, _ | _, NaN => NaN
  | Fin p, Fin q => Fin (p * q)%Qc
  | _, _ => inf_of (sign_mul (sign a) (sign b))
  end.

(** [a / b]: a finite non-zero number over zero is an infinity, [0 / 0] and
    an infinity over an infinity are NaN. *)
Definition div (a b : num) : num :=
  match a, b with
  | NaN, _ | _, NaN => NaN
  | Fin p, Fin q =>
      if Qc_eqb q 0%Qc then inf_of (sign a) else Fin (p / q)%Qc
  | Fin _, _ => zero
  | _, Fin _ =>
      inf_of (sign_mul (sign a) (match sign b with Eq => Gt | s => s end))
  | _, _ => NaN
  end.

(** [Math.max(a, b)] and [Math.min(a, b)]: NaN if either argument is. *)
Definition max2 (a b : num) : num :=
  match a, b with
  | NaN, _ | _, NaN => NaN
  | _, _ => if lt a b then b else a
  end.

Definition min2 (a b : num) : num :=
  match a, b with
  | NaN, _ | _, NaN => NaN
  | _, _ => if lt b a then b else a
  end.

(** [Math.max(...xs)]: the fold of [max2] from [-Infinity]. *)
Definition Math_max (xs : list num) : num := fold_left max2 xs NInf.

(** ** JavaScript values and the coercions the pages use *)

Inductive jsval : Type :=
| JUndefined
| JNull
| JBool (b : bool)
| JNum (n : num)
| JStr (s : string).

(** ToBoolean *)
Definition truthy (v : jsval) : bool :=
  match v with
  | JUndefined | JNull => false
  | JBool b => b
  | JNum n => negb (is_nan n || is_zero n)
  | JStr s => negb (String.eqb s EmptyString)
  end.

(** [a || b] *)
Definition or_else (a b : jsval) : jsval := if truthy a then a else b.

(** *** StringToNumber

    White space is the ASCII white space (the Unicode space characters are
    not modelled); the value of a literal is its exact rational: it is not
    rounded to a double, so a literal beyond the range of doubles keeps its
    value where JavaScript reads Infinity or 0. *)

Definition is_ws (c : ascii) : bool :=
  let n := nat_of_ascii c in
  (Nat.eqb n 32 || (Nat.leb 9 n && Nat.leb n 13))%bool.

Fixpoint drop_ws (cs : list ascii) : list ascii :=
  match cs with
  | c :: r => if is_ws c then drop_ws r else cs
  | [] => []
  end.

Definition trim (cs : list ascii) : list ascii :=
  rev (drop_ws (rev (drop_ws cs))).

Definition digit_val (radix : Z) (c : ascii) : option Z :=
  let n := Z.of_nat (nat_of_ascii c) in
  let v :=
    if (48 <=? n) && (n <=? 57) then n - 48
    else if (97 <=? n) && (n <=? 102) then n - 87
    else if (65 <=? n) && (n <=? 70) then n - 55
    else radix in
  if v <? radix then Some v else None.

(** Reads the longest prefix of digits: its value, its length, the rest. *)
Fixpoint digits (radix : Z) (cs : list ascii) (acc : Z) (len : nat)
  : Z * nat * list ascii :=
  match cs with
  | c :: r =>
      match digit_val radix c with
      | Some d => digits radix r (acc * radix + d) (S len)
      | None => (acc, len, cs)
      end
  | [] => (acc, len, [])
  end.

Definition scale10 (m : Qc) (e : Z) : Qc :=
  if 0 <=? e then (m * Q2Qc (inject_Z (10 ^ e)))%Qc
  else (m / Q2Qc (inject_Z (10 ^ (- e))))%Qc.

Definition exponent (cs : list ascii) : option Z :=
  match cs with
  | [] => Some 0
  | c :: r =>
      if (Ascii.eqb c "e" || Ascii.eqb c "E")%bool then
        let '(neg, r') :=
          match r with
          | "-"%char :: r' => (true, r')
          | "+"%char :: r' => (false, r')
          | _ => (false, r)
          end in
        match digits 10 r' 0 0 with
        | (_, O, _) => None
        | (e, _, []) => Some (if neg then - e else e)
        | _ => None
        end
      else None
  end.

Definition unsigned_decimal (cs : list ascii) : num :=
  if String.eqb (string_of_list_ascii cs) "Infinity" then PInf
  else
    let '(i, ni, r1) := digits 10 cs 0 0 in
    let '(f, nf, r2) :=
      match r1 with
      | "."%char :: r => digits 10 r 0 0
      | _ => (0, O, r1)
      end in
    match (ni + nf)%nat with
    | O => NaN
    | _ =>
        match exponent r2 with
        | Some e =>
            let den := 10 ^ Z.of_nat nf in
            Fin (scale10 (Q2Qc (Qmake (i * den + f) (Z.to_pos den))) e)
        | None => NaN
        end
    end.

Definition non_decimal (radix : Z) (cs : list ascii) : num :=
  match digits radix cs 0 0 with
  | (_, O, _) => NaN
  | (v, _, []) => of_Z v
  | _ => NaN
  end.

Definition neg (a : num) : num :=
  match a with
  | NaN => NaN
  | NInf => PInf
  | PInf => NInf
  | Fin q => Fin (- q)%Qc
  end.

Definition StringToNumber (s : string) : num :=
  match trim (list_ascii_of_string s) with
  | [] => zero
  | "0"%char :: c :: r =>
      if (Ascii.eqb c "x" || Ascii.eqb c "X")%bool then non_decimal 16 r
      else if (Ascii.eqb c "o" || Ascii.eqb c "O")%bool then non_decimal 8 r
      else if (Ascii.eqb c "b" || Ascii.eqb c "B")%bool then non_decimal 2 r
      else unsigned_decimal ("0"%char :: c :: r)
  | "-"%char :: r => neg (unsigned_decimal r)
  | "+"%char :: r => unsigned_decimal r
  | cs => unsigned_decimal cs
  end.

(** [Number(v)] *)
Definition Number (v : jsval) : num :=
  match v with
  | JUndefined => NaN
  | JNull => zero
  | JBool true => of_Z 1
  | JBool false => zero
  | JNum n => n
  | JStr s => StringToNumber s
  end.

End JS.

Import JS.

(** ** Rows of the [groups] table, as both pages declare them *)

Record GroupRow : Type := mkGroupRow {
  id : string;
  name : string;
  weekly_amount : jsval;
  weeks_total : jsval;
  paid_weeks : jsval;
  updated_at : string
}.

(** ** The viewer page: [clamp] and the [stats] memo of [HomePage] *)

Module Viewer.

(** The literal [0] of [g.field || 0]. *)
Definition js0 : jsval := JNum zero.

Definition clamp (n min max : num) : num := max2 min (min2 max n).

Record FundStats : Type := mkFundStats {
  members : nat;
  monthWeeks : num;
  totalCollected : num;
  fullMonthPaid : nat;
  targetPerMember : num
}.

Definition stats (groups : list GroupRow) : FundStats :=
  let members := List.length groups in
  let monthWeeks :=
    if (0 <? members)%nat
    then Math_max (map (fun g => Number (or_else (weeks_total g) js0)) groups)
    else of_Z 4 in
  let totalCollected :=
    fold_left
      (fun sum g =>
         let paidWeeks := Number (or_else (paid_weeks g) js0) in
         let weekly := Number (or_else (weekly_amount g) js0) in
         add sum (mul paidWeeks weekly))
      groups zero in
  let fullMonthPaid :=
    List.length
      (filter
         (fun g => ge (Number (or_else (paid_weeks g) js0))
                      (Number (or_else (weeks_total g) js0)))
         groups) in
  (* groups[0]?.weeks_total is undefined, hence falsy, when there is no
     first row *)
  let targetPerMember :=
    match nth_error groups 0 with
    | Some g0 =>
        if truthy (weeks_total g0)
        then mul (Number (weeks_total g0))
                 (Number (or_else (weekly_amount g0) js0))
        else of_Z 40
    | None => of_Z 40
    end in
  mkFundStats members monthWeeks totalCollected fullMonthPaid targetPerMember.

(** The locals of the per-group card in [groups.map]. *)
Definition paidWeeks (g : GroupRow) : num := Number (or_else (paid_weeks g) js0).
Definition totalWeeks (g : GroupRow) : num := Number (or_else (weeks_total g) js0).
Definition weekly (g : GroupRow) : num := Number (or_else (weekly_amount g) js0).
Definition paidAmount (g : GroupRow) : num := mul (paidWeeks g) (weekly g).

Definition pct (g : GroupRow) : num :=
  if gt (totalWeeks g) zero
  then clamp (mul (div (paidWeeks g) (totalWeeks g)) (of_Z 100)) zero (of_Z 100)
  else zero.

End Viewer.

(** ** The reduce of [stats], with the exceptions it can raise

    Reading a property of [null] or [undefined] raises a TypeError.  Reading
    a property of an object does not (a missing property is [undefined]), and
    neither do [||], [Number] on the scalars of JSON, [*] and [+]. *)

Module ViewerThrow.

Inductive outcome (A : Type) : Type :=
| Returns (a : A)
| Throws (error : string).

Arguments Returns {A} a.
Arguments Throws {A} error.

(** An element of the array handed to [reduce]: a row object, or [null] or
    [undefined] in its place. *)
Inductive element : Type :=
| RowObject (g : GroupRow)
| Nullish.

Definition bind {A B : Type} (m : outcome A) (k : A -> outcome B) : outcome B :=
  match m with
  | Returns a => k a
  | Throws e => Throws e
  end.

(** [g.field] *)
Definition read (field : GroupRow -> jsval) (g : element) : outcome jsval :=
  match g with
  | RowObject r => Returns (field r)
  | Nullish => Throws "TypeError: cannot read properties of null"
  end.

(** The callback of [groups.reduce]. *)
Definition callback (sum : num) (g : element) : outcome num :=
  bind (read paid_weeks g) (fun pw =>
  bind (read weekly_amount g) (fun wa =>
  let paidWeeks := Number (or_else pw Viewer.js0) in
  let weekly := Number (or_else wa Viewer.js0) in
  Returns (add sum (mul paidWeeks weekly)))).

(** [groups.reduce(callback, 0)] *)
Fixpoint reduce (groups : list element) (sum : num) : outcome num :=
  match groups with
  | [] => Returns sum
  | g :: rest => bind (callback sum g) (reduce rest)
  end.

Definition totalCollected (groups : list element) : outcome num :=
  reduce groups zero.

End ViewerThrow.

(** ** The progress percentage on binary64 numbers

    The expression of the card, [totalWeeks > 0 ? clamp((paidWeeks /
    totalWeeks) * 100, 0, 100) : 0], with the arithmetic of IEEE-754 doubles
    (precision 53, exponents up to 1024, rounding to nearest even). *)

Module Binary64.

Definition double : Type := spec_float.

Definition of_Z (z : Z) : double := binary_normalize 53 1024 z 0 false.

Definition mul (a b : double) : double := SFmul 53 1024 a b.
Definition div (a b : double) : double := SFdiv 53 1024 a b.
Definition lt (a b : double) : bool := SFltb a b.

Definition is_nan (a : double) : bool :=
  match a with S754_nan => true | _ => false end.

Definition max2 (a b : double) : double :=
  if is_nan a || is_nan b then S754_nan else if lt a b then b else a.

Definition min2 (a b : double) : double :=
  if is_nan a || is_nan b then S754_nan else if lt b a then b else a.

Definition clamp (n min max : double) : double := max2 min (min2 max n).

Definition pct (paidWeeks totalWeeks : double) : double :=
  if lt (of_Z 0) totalWeeks
  then clamp (mul (div paidWeeks totalWeeks) (of_Z 100)) (of_Z 0) (of_Z 100)
  else of_Z 0.

(** The rational that a finite double stands for is [m * 2 ^ e]. *)
Definition finite (negative : bool) (m : positive) (e : Z) : double :=
  S754_finite negative m e.

End Binary64.

(** ** The admin page: [AdminPage]

    The page is a set of React state variables and of asynchronous functions.
    An asynchronous function runs until its next [await], where it issues a
    request and suspends; it is resumed by the response.  A transition of the
    model is one such uninterrupted run: an event handler up to its first
    [await], or a continuation from a response up to the next [await].  The
    state updates made during one run are applied in order, and the page is
    rendered with the state that the run leaves; the effect that depends on
    [isAdmin] runs after that render.  The identity provider and the record
    store are the environment: their responses are events, and the requests
    sent to them are logged. *)

Module Admin.

(** The user object of the identity provider: [data.user]. *)
Record User : Type := mkUser {
  user_id : string;
  email : option string
}.

(** The [useState] variables. *)
Record state : Type := mkState {
  userEmail : option string;
  isAdmin : bool;
  emailInput : string;
  sending : bool;
  msg : option string;
  groups : list GroupRow;
  loadingGroups : bool;
  savingId : option string
}.

Definition initial : state :=
  mkState None false "" false None [] false None.

(** Requests sent to the identity provider and to the record store. *)
Inductive request : Type :=
| ReqGetUser
| ReqRole (uid : string)
| ReqSelectGroups
| ReqUpdate (gid : string) (paidWeeks : num)
| ReqSignOut
| ReqOtp (address : string).

(** Suspended asynchronous functions, each at its [await]. *)
Inductive task : Type :=
| AwaitGetUser
| AwaitRole (uid : string)
| AwaitLoad (saving : bool)   (* [saving]: [loadGroups] awaited by [savePaidWeeks] *)
| AwaitUpdate (gid : string)
| AwaitSignOut
| AwaitOtp.

Definition task_eqb (a b : task) : bool :=
  match a, b with
  | AwaitGetUser, AwaitGetUser => true
  | AwaitRole u, AwaitRole v => String.eqb u v
  | AwaitLoad x, AwaitLoad y => Bool.eqb x y
  | AwaitUpdate g, AwaitUpdate h => String.eqb g h
  | AwaitSignOut, AwaitSignOut => true
  | AwaitOtp, AwaitOtp => true
  | _, _ => false
  end.

Fixpoint remove_first (t : task) (ts : list task) : list task :=
  match ts with
  | [] => []
  | u :: r => if task_eqb t u then r else u :: remove_first t r
  end.

Record config : Type := mkConfig {
  st : state;
  pending : list task;
  sent : list request
}.

(** *** Commands: the statements of the asynchronous functions *)

Definition cmd : Type := config -> config.

Definition skip : cmd := fun c => c.
Definition seq (a b : cmd) : cmd := fun c => b (a c).

Declare Scope cmd_scope.
Delimit Scope cmd_scope with cmd.
Bind Scope cmd_scope with cmd.
Notation "a ;; b" := (seq a b) (at level 61, right associativity) : cmd_scope.
Local Open Scope cmd_scope.

Definition on_state (f : state -> state) : cmd :=
  fun c => mkConfig (f (st c)) (pending c) (sent c).

Definition setUserEmail (v : option string) : cmd :=
  on_state (fun s => mkState v (isAdmin s) (emailInput s) (sending s) (msg s)
                             (groups s) (loadingGroups s) (savingId s)).
Definition setIsAdmin (v : bool) : cmd :=
  on_state (fun s => mkState (userEmail s) v (emailInput s) (sending s) (msg s)
                             (groups s) (loadingGroups s) (savingId s)).
Definition setEmailInput (v : string) : cmd :=
  on_state (fun s => mkState (userEmail s) (isAdmin s) v (sending s) (msg s)
                             (groups s) (loadingGroups s) (savingId s)).
Definition setSending (v : bool) : cmd :=
  on_state (fun s => mkState (userEmail s) (isAdmin s) (emailInput s) v (msg s)
                             (groups s) (loadingGroups s) (savingId s)).
Definition setMsg (v : option string) : cmd :=
  on_state (fun s => mkState (userEmail s) (isAdmin s) (emailInput s)
                             (sending s) v (groups s) (loadingGroups s)
                             (savingId s)).
Definition setGroups (v : list GroupRow) : cmd :=
  on_state (fun s => mkState (userEmail s) (isAdmin s) (emailInput s)
                             (sending s) (msg s) v (loadingGroups s)
                             (savingId s)).
Definition setLoadingGroups (v : bool) : cmd :=
  on_state (fun s => mkState (userEmail s) (isAdmin s) (emailInput s)
                             (sending s) (msg s) (groups s) v (savingId s)).
Definition setSavingId (v : option string) : cmd :=
  on_state (fun s => mkState (userEmail s) (isAdmin s) (emailInput s)
                             (sending s) (msg s) (groups s) (loadingGroups s)
                             v).

(** Issue a request, and suspend on its answer. *)
Definition send (r : request) : cmd :=
  fun c => mkConfig (st c) (pending c) (sent c ++ [r]).
Definition await (t : task) : cmd :=
  fun c => mkConfig (st c) (pending c ++ [t]) (sent c).

(** *** The asynchronous functions, split at their [await]s *)

(** [refreshAuth], up to [supabase.auth.getUser()]. *)
Definition refreshAuth : cmd := send ReqGetUser ;; await AwaitGetUser.

(** [refreshAuth], from the user to the role query. *)
Definition refreshAuth_user (u : option User) : cmd :=
  setUserEmail (match u with Some usr => email usr | None => None end) ;;
  match u with
  | None => setIsAdmin false
  | Some usr => send (ReqRole (user_id usr)) ;; await (AwaitRole (user_id usr))
  end.

(** [refreshAuth], from the role row ([None]: no row) to its end. *)
Definition refreshAuth_role (role : option string) : cmd :=
  setIsAdmin (match role with
              | Some r => String.eqb r "admin"
              | None => false
              end).

(** [loadGroups], up to the select. *)
Definition loadGroups (saving : bool) : cmd :=
  setLoadingGroups true ;; setMsg None ;;
  send ReqSelectGroups ;; await (AwaitLoad saving).

(** [loadGroups], from the answer to its end; when it was awaited by
    [savePaidWeeks], that function's last statement follows. *)
Definition loadGroups_resume (saving : bool) (data : option (list GroupRow))
    (error : option string) : cmd :=
  match error with
  | Some m => setMsg (Some ("Load error: " ++ m)%string)
  | None => skip
  end ;;
  setGroups (match data with Some rows => rows | None => [] end) ;;
  setLoadingGroups false ;;
  if saving then setSavingId None else skip.

(** [sendMagicLink] *)
Definition sendMagicLink : cmd :=
  fun c =>
    (setSending true ;; setMsg None ;;
     send (ReqOtp (emailInput (st c))) ;; await AwaitOtp) c.

Definition sendMagicLink_resume (error : option string) : cmd :=
  match error with
  | Some m => setMsg (Some m)
  | None => setMsg (Some "✅ Sent! Check your email for the login link."%string)
  end ;;
  setSending false.

(** [signOut] *)
Definition signOut : cmd := send ReqSignOut ;; await AwaitSignOut.

Definition signOut_resume : cmd := setGroups [] ;; setMsg None.

(** [savePaidWeeks], up to the update. *)
Definition savePaidWeeks (gid : string) (paidWeeks : num) : cmd :=
  setSavingId (Some gid) ;; setMsg None ;;
  send (ReqUpdate gid paidWeeks) ;; await (AwaitUpdate gid).

(** [savePaidWeeks], from the answer of the update: on an error the message
    and the end of the function; otherwise the confirmation and the call of
    [loadGroups], which runs up to its select. *)
Definition savePaidWeeks_resume (error : option string) : cmd :=
  match error with
  | Some m => setMsg (Some ("Save failed: " ++ m)%string) ;; setSavingId None
  | None => setMsg (Some "✅ Saved!"%string) ;; loadGroups true
  end.

(** *** What is rendered *)

(** [Boolean(userEmail && isAdmin)] *)
Definition canEdit (s : state) : bool :=
  match userEmail s with
  | Some e => if String.eqb e "" then false else isAdmin s
  | None => false
  end.

Definition signed_in (s : state) : bool :=
  match userEmail s with
  | Some e => negb (String.eqb e "")
  | None => false
  end.

(** The role line: [userEmail ? (isAdmin ? "admin" : "viewer") : "-"]. *)
Inductive auth_state : Type := Anonymous | AuthViewer | AuthAdmin.

Definition role_shown (s : state) : auth_state :=
  if signed_in s then (if isAdmin s then AuthAdmin else AuthViewer)
  else Anonymous.

Definition saving_this (s : state) (gid : string) : bool :=
  match savingId s with
  | Some i => String.eqb i gid
  | None => false
  end.

(** [disabled={!canEdit || savingId === g.id}], on the input and the button. *)
Definition controls_disabled (s : state) (gid : string) : bool :=
  negb (canEdit s) || saving_this s gid.

Definition has_group (s : state) (gid : string) : bool :=
  existsb (fun g => String.eqb (id g) gid) (groups s).

(** *** Events and transitions *)

Inductive event : Type :=
| AuthStateChange
| GetUserResp (u : option User)
| RoleResp (uid : string) (role : option string)
| LoadResp (saving : bool) (data : option (list GroupRow))
           (error : option string)
| UpdateResp (gid : string) (error : option string)
| SignOutDone
| OtpResp (error : option string)
| TypeEmail (text : string)
| ClickSend
| ClickSignOut
| PressEnter (gid : string) (text : string)
| ClickSave (gid : string) (text : string)
| ClickRefresh.

(** The effect [if (isAdmin) loadGroups()], with dependency [isAdmin].  It is
    run after every transition that changes [isAdmin]; React runs it after a
    render, and a render can follow several transitions, so the page reads
    the groups at most as often as this model does. *)
Definition effects (before : state) : cmd :=
  fun c =>
    if negb (isAdmin before) && isAdmin (st c) then loadGroups false c else c.

Definition handle (k : cmd) (c : config) : config := effects (st c) (k c).

Definition resume (t : task) (k : cmd) (c : config) : option config :=
  if existsb (task_eqb t) (pending c)
  then Some (handle k (mkConfig (st c) (remove_first t (pending c)) (sent c)))
  else None.

Definition guarded (b : bool) (k : cmd) (c : config) : option config :=
  if b then Some (handle k c) else None.

Definition step (c : config) (e : event) : option config :=
  let s := st c in
  match e with
  | AuthStateChange => Some (handle refreshAuth c)
  | GetUserResp u => resume AwaitGetUser (refreshAuth_user u) c
  | RoleResp uid role => resume (AwaitRole uid) (refreshAuth_role role) c
  | LoadResp saving data error =>
      resume (AwaitLoad saving) (loadGroups_resume saving data error) c
  | UpdateResp gid error =>
      resume (AwaitUpdate gid) (savePaidWeeks_resume error) c
  | SignOutDone => resume AwaitSignOut signOut_resume c
  | OtpResp error => resume AwaitOtp (sendMagicLink_resume error) c
  | TypeEmail text => guarded (negb (signed_in s)) (setEmailInput text) c
  | ClickSend =>
      guarded (negb (signed_in s) &&
               negb (sending s || String.eqb (emailInput s) ""))
              sendMagicLink c
  | ClickSignOut => guarded (signed_in s) signOut c
  (* both handlers pass [Number] of the text of the group's input *)
  | PressEnter gid text | ClickSave gid text =>
      guarded (has_group s gid && negb (controls_disabled s gid))
              (savePaidWeeks gid (Number (JStr text))) c
  | ClickRefresh => guarded (canEdit s) (loadGroups false) c
  end.

(** The page once mounted: the first effect has called [refreshAuth]. *)
Definition init : config := refreshAuth (mkConfig initial [] []).

Fixpoint run (c : config) (es : list event) : option config :=
  match es with
  | [] => Some c
  | e :: r =>
      match step c e with
      | Some c' => run c' r
      | None => None
      end
  end.

Definition reachable (c : config) : Prop := exists es, run init es = Some c.

(** The configuration after a sequence of events that the page accepts. *)
Definition after (es : list event) : config :=
  match run init es with
  | Some c => c
  | None => init
  end.

(** Configurations reached through configurations that all satisfy [P]. *)
Inductive reachable_within (P : config -> Prop) : config -> Prop :=
| within_init : P init -> reachable_within P init
| within_step c e c' :
    reachable_within P c -> step c e = Some c' -> P c' ->
    reachable_within P c'.


(** What holds as long as [isAdmin] has never been true. *)
Definition nothing_loaded (c : config) : Prop :=
  groups (st c) = [] /\
  ~ In ReqSelectGroups (sent c) /\
  (forall b, ~ In (AwaitLoad b) (pending c)) /\
  (forall g, ~ In (AwaitUpdate g) (pending c)).


(** The requests that a transition adds to the log. *)
Definition issues (c c' : config) (r : request) : Prop :=
  exists before, sent c' = sent c ++ before /\ In r before.

End Admin.

(** Sample data for the admin page. *)
Module AdminSample.

Import Admin.

Definition admin_user : User := mkUser "u-admin" (Some "admin@example.org"%string).
Definition plain_user : User := mkUser "u-plain" (Some "member@example.org"%string).

Definition group_a : GroupRow :=
  mkGroupRow "a" "Group A" (JNum (of_Z 10)) (JNum (of_Z 4)) (JNum (of_Z 2))
             "2024-01-02T00:00:00Z".
Definition group_b : GroupRow :=
  mkGroupRow "b" "Group B" (JNum (of_Z 10)) (JNum (of_Z 4)) (JNum (of_Z 0))
             "2024-01-01T00:00:00Z".

(** An admin signs in and the two groups are loaded. *)
Definition admin_session : list event :=
  [ GetUserResp (Some admin_user);
    RoleResp "u-admin" (Some "admin"%string);
    LoadResp false (Some [group_a; group_b]) None ].



(** A save is still in flight when the admin signs out. *)
Definition sign_out_during_save : list event :=
  admin_session ++
  [ ClickSave "a" "3"; ClickSignOut; SignOutDone;
    AuthStateChange; GetUserResp None ].

End AdminSample.

(** ** The quantities the specification names, for comparison with [stats] *)

Module ViewerSpec.

(** The sum of a list of amounts, accumulated from 0 in the order of the
    list. *)
Definition sum (xs : list num) : num := fold_left add xs zero.

(** A number brought into an interval: the bound it lies beyond, or itself. *)
Definition clamped (x lo hi : num) : num :=
  if lt x lo then lo else if lt hi x then hi else x.

(** A field read as the specification words it: its numeric value, and zero
    when it is missing or not numeric. *)
Definition coerced_or_zero (v : jsval) : num :=
  if is_nan (Number v) then zero else Number v.

(** A field that holds text which is not a numeric literal. *)
Definition non_numeric_text (v : jsval) : bool :=
  truthy v && is_nan (Number v).

(** [counts P gs n]: exactly [n] of the rows of [gs] satisfy [P]. *)
Inductive counts (P : GroupRow -> Prop) : list GroupRow -> nat -> Prop :=
| counts_nil : counts P [] 0
| counts_in g gs n : P g -> counts P gs n -> counts P (g :: gs) (S n)
| counts_out g gs n : ~ P g -> counts P gs n -> counts P (g :: gs) n.


(** A row that has paid its full month. *)
Definition full_month (g : GroupRow) : Prop :=
  ge (Viewer.paidWeeks g) (Viewer.totalWeeks g) = true.

(** The paid amount of a row with its fields read that way. *)
Definition paid_amount_spec (g : GroupRow) : num :=
  mul (coerced_or_zero (paid_weeks g)) (coerced_or_zero (weekly_amount g)).

(** Sample rows. *)
Definition row (paid total amount : Z) : GroupRow :=
  mkGroupRow "g" "group" (JNum (of_Z amount)) (JNum (of_Z total))
             (JNum (of_Z paid)) "2024-01-01T00:00:00Z".

Definition row_missing_paid : GroupRow :=
  mkGroupRow "m" "no paid_weeks yet" (JNum (of_Z 10)) (JNum (of_Z 4))
             JNull "2024-01-01T00:00:00Z".

Definition row_missing_total : GroupRow :=
  mkGroupRow "w" "no weeks_total" (JNum (of_Z 10)) JNull
             (JNum (of_Z 1)) "2024-01-01T00:00:00Z".

Definition row_text_paid : GroupRow :=
  mkGroupRow "t" "text in paid_weeks" (JNum (of_Z 10)) (JNum (of_Z 4))
             (JStr "abc") "2024-01-01T00:00:00Z".

(** The constant 100 of the percentage. *)
Definition hundred : Qc := Q2Qc (inject_Z 100).

End ViewerSpec.

(** ** The viewer page as a whole: its state, [loadGroups] and what it shows *)

Module Home.

(** The [useState] variables of [HomePage]. *)
Record state : Type := mkState {
  groups : list GroupRow;
  loading : bool;
  msg : option string
}.

Definition initial : state := mkState [] true None.

(** [loadGroups], up to the select. *)
Definition loadGroups (s : state) : state := mkState (groups s) true None.

(** [loadGroups], from the answer to its end. *)
Definition loadGroups_resume (data : option (list GroupRow))
    (error : option string) (s : state) : state :=
  match error with
  | Some m => mkState [] false (Some ("Load error: " ++ m)%string)
  | None =>
      mkState (match data with Some rows => rows | None => [] end) false
              (msg s)
  end.

(** The cards: [!loading && groups.map(...)]. *)
Definition cards (s : state) : list GroupRow :=
  if loading s then [] else groups s.

(** [Math.round]: the nearest integer, a half going up. *)
Definition Math_round (a : num) : num :=
  match a with
  | Fin q => of_Z (Qfloor (q + (1 # 2)))
  | _ => a
  end.

(** The percentage printed on a card: [Math.round(pct)]. *)
Definition pct_label (g : GroupRow) : num := Math_round (Viewer.pct g).

End Home.

(** ** Counting the suspended functions of the admin page *)

Module AdminCount.

Import Admin.

Definition in_flight (t : task) (c : config) : nat :=
  List.length (filter (task_eqb t) (pending c)).

(** The requests that an accepted event causes, the effect included. *)
Definition requested (c : config) (e : event) : list request :=
  match e with
  | AuthStateChange => [ReqGetUser]
  | GetUserResp (Some usr) => [ReqRole (user_id usr)]
  | RoleResp _ (Some r) =>
      if negb (isAdmin (st c)) && String.eqb r "admin"
      then [ReqSelectGroups] else []
  | UpdateResp _ None => [ReqSelectGroups]
  | ClickSend => [ReqOtp (emailInput (st c))]
  | ClickSignOut => [ReqSignOut]
  | PressEnter gid text | ClickSave gid text =>
      [ReqUpdate gid (Number (JStr text))]
  | ClickRefresh => [ReqSelectGroups]
  | _ => []
  end.

End AdminCount.

(** * Facts about numbers *)

Section NumFacts.

Lemma Fin_ext (p q : Qc) : (p == q)%Q -> Fin p = Fin q.
Proof. intros H. f_equal. now apply Qc_is_canon. Qed.

Lemma Qc_eqb_eq (p q : Qc) : Qc_eqb p q = true <-> p = q.
Proof.
  unfold Qc_eqb. rewrite Qceq_alt. destruct (p ?= q)%Qc; split; congruence.
Qed.

Lemma Qc_ltb_lt (p q : Qc) : Qc_ltb p q = true <-> (p < q)%Qc.
Proof.
  unfold Qc_ltb. rewrite Qclt_alt. destruct (p ?= q)%Qc; split; congruence.
Qed.

Lemma Qc_leb_le (p q : Qc) : Qc_leb p q = true <-> (p <= q)%Qc.
Proof.
  unfold Qc_leb. rewrite Qcle_alt. destruct (p ?= q)%Qc; split; congruence.
Qed.

Lemma Qc_ltb_ge (p q : Qc) : Qc_ltb p q = false <-> (q <= p)%Qc.
Proof.
  split; intros H.
  - apply Qcnot_lt_le. intros L. apply Qc_ltb_lt in L. congruence.
  - destruct (Qc_ltb p q) eqn:E; [|reflexivity].
    apply Qc_ltb_lt in E. now apply Qclt_not_le in E.
Qed.

Lemma Qc_zero_lt_neq (t : Qc) : (0 < t)%Qc -> t <> 0%Qc.
Proof. intros H E. subst t. revert H. apply Qcle_not_lt, Qcle_refl. Qed.

(** The share [p / t] of a cycle as a percentage, for [0 <= p <= t]. *)
Lemma share_bounds (c p t : Qc) :
  (0 <= c)%Qc -> (0 < t)%Qc -> (0 <= p)%Qc -> (p <= t)%Qc ->
  (p / t * c = c * p / t)%Qc /\ (0 <= c * p / t)%Qc /\ (c * p / t <= c)%Qc.
Proof.
  intros Hc Ht H0 Hp. pose proof (Qc_zero_lt_neq t Ht) as Hn.
  assert (E : (c * p / t * t = c * p)%Qc) by (field; exact Hn).
  split; [field; exact Hn|]. split.
  - apply Qcmult_lt_0_le_reg_r with (z := t); [exact Ht|].
    rewrite E, Qcmult_0_l.
    rewrite <- (Qcmult_0_l p). now apply Qcmult_le_compat_r.
  - apply Qcmult_lt_0_le_reg_r with (z := t); [exact Ht|].
    rewrite E, (Qcmult_comm c p), (Qcmult_comm c t).
    now apply Qcmult_le_compat_r.
Qed.

Lemma num_add_NaN_r (a : num) : add a NaN = NaN.
Proof. now destruct a. Qed.

Lemma num_le_refl (a : num) : is_nan a = false -> le a a = true.
Proof.
  destruct a; simpl; try easy. intros _. apply Qc_leb_le, Qcle_refl.
Qed.


Lemma num_lt_le (a b : num) : lt a b = true -> le a b = true.
Proof.
  destruct a, b; simpl; try easy.
  rewrite Qc_ltb_lt, Qc_leb_le. apply Qclt_le_weak.
Qed.

Lemma num_not_lt_le (a b : num) :
  is_nan a = false -> is_nan b = false -> lt a b = false -> le b a = true.
Proof.
  destruct a, b; simpl; try easy.
  intros _ _. rewrite Qc_ltb_ge, Qc_leb_le. trivial.
Qed.

(** [Math.max(a, b)] of two numbers is one of them and bounds both. *)
Lemma max2_spec (a b : num) :
  is_nan a = false -> is_nan b = false ->
  is_nan (max2 a b) = false /\ le a (max2 a b) = true /\
  le b (max2 a b) = true /\ (max2 a b = a \/ max2 a b = b).
Proof.
  intros Ha Hb.
  assert (E : max2 a b = if lt a b then b else a) by now destruct a, b.
  rewrite E. destruct (lt a b) eqn:L.
  - repeat split; auto using num_lt_le, num_le_refl.
  - repeat split; auto using num_not_lt_le, num_le_refl.
Qed.



End NumFacts.

(** * The viewer's metrics *)

Section ViewerFacts.

Import Viewer ViewerSpec.

Lemma Number_or_zero (v : jsval) :
  non_numeric_text v = false -> Number (or_else v js0) = coerced_or_zero v.
Proof.
  unfold non_numeric_text, or_else, coerced_or_zero.
  destruct v as [| |[|]|n|s]; simpl; try reflexivity.
  - destruct n; simpl; try reflexivity.
    destruct (Qc_eqb q 0) eqn:E; simpl; [|reflexivity].
    apply Qc_eqb_eq in E. now subst q.
  - destruct s as [|c s]; simpl; [reflexivity|].
    intros H. now rewrite H.
Qed.

Lemma totalCollected_fold (gs : list GroupRow) :
  totalCollected (stats gs)
  = fold_left (fun sum g => add sum (paidAmount g)) gs zero.
Proof. reflexivity. Qed.

Lemma sum_map (h : GroupRow -> num) (gs : list GroupRow) (acc : num) :
  fold_left add (map h gs) acc = fold_left (fun sum g => add sum (h g)) gs acc.
Proof.
  revert acc. induction gs as [|g gs IH]; intros acc; simpl; [reflexivity|].
  apply IH.
Qed.

Lemma fold_amounts_ext (h k : GroupRow -> num) (gs : list GroupRow) (acc : num) :
  (forall g, In g gs -> h g = k g) ->
  fold_left (fun sum g => add sum (h g)) gs acc
  = fold_left (fun sum g => add sum (k g)) gs acc.
Proof.
  revert acc. induction gs as [|g gs IH]; intros acc H; simpl; [reflexivity|].
  rewrite (H g) by now left. apply IH. intros x Hx. apply H. now right.
Qed.

Lemma reduce_returns (gs : list GroupRow) (acc : num) :
  ViewerThrow.reduce (map ViewerThrow.RowObject gs) acc
  = ViewerThrow.Returns
      (fold_left (fun sum g => add sum (paidAmount g)) gs acc).
Proof.
  revert acc. induction gs as [|g gs IH]; intros acc; simpl; [reflexivity|].
  apply IH.
Qed.

(** The reduce does throw when an element of the array is [null]. *)
Lemma reduce_throws_on_null (before after : list ViewerThrow.element) :
  (forall el, In el before -> exists g, el = ViewerThrow.RowObject g) ->
  exists error,
    ViewerThrow.totalCollected (before ++ ViewerThrow.Nullish :: after)
    = ViewerThrow.Throws error.
Proof.
  unfold ViewerThrow.totalCollected. generalize zero as acc.
  induction before as [|el before IH]; intros acc H; simpl.
  - eexists. reflexivity.
  - destruct (H el (or_introl eq_refl)) as [g ->]. simpl.
    apply IH. intros x Hx. apply H. now right.
Qed.

Lemma Fin_neq (p q : Qc) : Qc_eqb p q = false -> Fin p <> Fin q.
Proof.
  intros E H. injection H as ->.
  assert (T : Qc_eqb q q = true) by now apply Qc_eqb_eq. congruence.
Qed.

(** C1, as stated, fails: a row whose [paid_weeks] holds the text ["abc"]
    makes [totalCollected] NaN, whereas counting that field as zero gives 0. *)
Lemma totalCollected_text_counterexample :
  totalCollected (stats [row_text_paid]) = NaN /\
  sum (map paid_amount_spec [row_text_paid]) = zero /\
  totalCollected (stats [row_text_paid])
    <> sum (map paid_amount_spec [row_text_paid]).
Proof.
  assert (E : sum (map paid_amount_spec [row_text_paid]) = zero)
    by (apply Fin_ext; reflexivity).
  split; [reflexivity|]. split; [exact E|]. rewrite E. discriminate.
Qed.

(** C1 (amended): when no [paid_weeks] or [weekly_amount] field holds text
    that is not a numeric literal, [totalCollected] is the sum of
    paidWeeks x weeklyAmount over the groups, added up from 0 in the order
    of the collection, a missing ([null], [undefined]), NaN or empty field
    counting as zero; over the empty collection it is 0; and for every
    collection of row objects, whatever their fields hold, the reduce
    returns and does not throw. *)
Theorem totalCollected_coerced :
  (forall gs : list GroupRow,
      (forall g, In g gs ->
                 non_numeric_text (paid_weeks g) = false /\
                 non_numeric_text (weekly_amount g) = false) ->
      totalCollected (stats gs) = sum (map paid_amount_spec gs)) /\
  totalCollected (stats []) = zero /\
  (forall gs : list GroupRow,
      ViewerThrow.totalCollected (map ViewerThrow.RowObject gs)
      = ViewerThrow.Returns (totalCollected (stats gs))).
Proof.
  split; [|split; [reflexivity|]].
  - intros gs H. rewrite totalCollected_fold. unfold sum. rewrite sum_map.
    apply fold_amounts_ext. intros g Hg. destruct (H g Hg) as [Hp Hw].
    unfold paidAmount, paidWeeks, weekly, paid_amount_spec.
    now rewrite !Number_or_zero.
  - intros gs. rewrite totalCollected_fold. apply reduce_returns.
Qed.

Lemma totalCollected_coerced_witness :
  totalCollected (stats [row 2 4 10; row_missing_paid; row 4 4 10])
  = sum (map paid_amount_spec [row 2 4 10; row_missing_paid; row 4 4 10]).
Proof.
  apply (proj1 totalCollected_coerced).
  intros g [<-|[<-|[<-|[]]]]; split; reflexivity.
Defined.

(** Fields of the declared type, and missing ones, satisfy the condition. *)
Lemma number_or_missing (v : jsval) :
  (exists n, v = JNum n) \/ v = JNull \/ v = JUndefined ->
  non_numeric_text v = false.
Proof.
  intros [[n ->]|[->| ->]]; try reflexivity.
  unfold non_numeric_text. simpl. destruct n; simpl; try reflexivity.
  apply andb_false_r.
Qed.

(** The end-to-end figures: groups (10, 4, 4) and (10, 4, 0) give a total
    of 40, one full month and two members. *)
Lemma stats_example :
  totalCollected (stats [row 4 4 10; row 0 4 10]) = of_Z 40 /\
  fullMonthPaid (stats [row 4 4 10; row 0 4 10]) = 1%nat /\
  members (stats [row 4 4 10; row 0 4 10]) = 2%nat /\
  targetPerMember (stats [row 4 4 10; row 0 4 10]) = of_Z 40 /\
  monthWeeks (stats [row 4 4 10; row 0 4 10]) = of_Z 4.
Proof.
  repeat split; try reflexivity; apply Fin_ext; reflexivity.
Qed.

(** A text field that is not a numeric literal turns the total into NaN. *)
Lemma totalCollected_text_NaN (gs : list GroupRow) (g : GroupRow) :
  In g gs ->
  non_numeric_text (paid_weeks g) = true \/
  non_numeric_text (weekly_amount g) = true ->
  totalCollected (stats gs) = NaN.
Proof.
  intros Hin Hg. rewrite totalCollected_fold.
  assert (E : paidAmount g = NaN).
  { unfold paidAmount, paidWeeks, weekly, or_else, non_numeric_text in *.
    destruct Hg as [Hg|Hg]; apply andb_prop in Hg as [T N]; rewrite T.
    - destruct (Number (paid_weeks g)); try discriminate. reflexivity.
    - destruct (Number (weekly_amount g)); try discriminate.
      now destruct (Number _). }
  assert (A : forall hs, fold_left (fun sum h => add sum (paidAmount h)) hs NaN
                         = NaN)
    by (induction hs; simpl; trivial).
  generalize zero as acc.
  induction gs as [|h gs IH]; intros acc; [contradiction|]. simpl.
  destruct Hin as [->|Hin].
  - rewrite E, num_add_NaN_r. apply A.
  - now apply IH.
Qed.

(** *** Progress percentage *)

(** [clamp] leaves a number of the interval unchanged. *)
Lemma clamp_in_range (x lo hi : Qc) :
  (lo <= x)%Qc -> (x <= hi)%Qc -> clamp (Fin x) (Fin lo) (Fin hi) = Fin x.
Proof.
  intros Hlo Hhi. unfold clamp.
  assert (E : min2 (Fin hi) (Fin x) = Fin x).
  { simpl. destruct (Qc_ltb x hi) eqn:L; [reflexivity|].
    apply Qc_ltb_ge in L. f_equal. now apply Qcle_antisym. }
  rewrite E. simpl. destruct (Qc_ltb lo x) eqn:L; [reflexivity|].
  apply Qc_ltb_ge in L. f_equal. now apply Qcle_antisym.
Qed.

(** [clamp] always lands in the interval, whatever number it is given. *)
Lemma clamp_bounds (n : num) (lo hi : Qc) :
  is_nan n = false -> (lo <= hi)%Qc ->
  le (Fin lo) (clamp n (Fin lo) (Fin hi)) = true /\
  le (clamp n (Fin lo) (Fin hi)) (Fin hi) = true.
Proof.
  intros Hn Hlh. unfold clamp.
  assert (M : exists m, min2 (Fin hi) n = m /\ is_nan m = false /\
                        le m (Fin hi) = true).
  { destruct n; try discriminate; simpl.
    - exists NInf. now repeat split.
    - destruct (Qc_ltb q hi) eqn:L.
      + exists (Fin q). repeat split. simpl. apply Qc_leb_le.
        now apply Qclt_le_weak, Qc_ltb_lt.
      + exists (Fin hi). repeat split. simpl. apply Qc_leb_le, Qcle_refl.
    - exists (Fin hi). repeat split. simpl. apply Qc_leb_le, Qcle_refl. }
  destruct M as (m & -> & Hm & Hmh).
  destruct (max2_spec (Fin lo) m eq_refl Hm) as (_ & Hl & _ & [E|E]).
  - split; [assumption|]. rewrite E. simpl. now apply Qc_leb_le.
  - split; [assumption|]. now rewrite E.
Qed.

(** [clamp] is the number brought into the interval: below the lower bound
    it is that bound, above the upper bound it is that bound, in between it
    is the number itself, and NaN stays NaN. *)
Lemma clamp_clamped (n : num) (lo hi : Qc) :
  (lo <= hi)%Qc -> clamp n (Fin lo) (Fin hi) = clamped n (Fin lo) (Fin hi).
Proof.
  intros Hlh. unfold clamp, clamped.
  assert (M : max2 (Fin lo) (Fin hi) = Fin hi).
  { simpl. destruct (Qc_ltb lo hi) eqn:L; [reflexivity|].
    apply Qc_ltb_ge in L. f_equal. now apply Qcle_antisym. }
  destruct n as [| |x|]; try reflexivity.
  - simpl. destruct (Qc_ltb x lo) eqn:L1.
    + apply Qc_ltb_lt in L1.
      assert (L2 : Qc_ltb x hi = true)
        by (apply Qc_ltb_lt; eapply Qclt_le_trans; eassumption).
      rewrite L2. simpl.
      assert (L3 : Qc_ltb lo x = false)
        by (apply Qc_ltb_ge; now apply Qclt_le_weak).
      now rewrite L3.
    + apply Qc_ltb_ge in L1. destruct (Qc_ltb hi x) eqn:L2.
      * apply Qc_ltb_lt in L2.
        assert (L3 : Qc_ltb x hi = false)
          by (apply Qc_ltb_ge; now apply Qclt_le_weak).
        rewrite L3. exact M.
      * apply Qc_ltb_ge in L2.
        change (clamp (Fin x) (Fin lo) (Fin hi) = Fin x).
        now apply clamp_in_range.
  - exact M.
Qed.

(** On doubles, whatever the two operations round to, the percentage is NaN
    or lies between 0 and 100. *)
Lemma pct_binary64_bounds (paidWeeks totalWeeks : Binary64.double) :
  Binary64.is_nan (Binary64.pct paidWeeks totalWeeks) = false ->
  SFleb (Binary64.of_Z 0) (Binary64.pct paidWeeks totalWeeks) = true /\
  SFleb (Binary64.pct paidWeeks totalWeeks) (Binary64.of_Z 100) = true.
Proof.
  unfold Binary64.pct.
  destruct (Binary64.lt (Binary64.of_Z 0) totalWeeks); [|now split].
  generalize (Binary64.mul (Binary64.div paidWeeks totalWeeks)
                           (Binary64.of_Z 100)) as x.
  intros x. unfold Binary64.clamp, Binary64.min2.
  change (Binary64.is_nan (Binary64.of_Z 100)) with false.
  destruct (Binary64.is_nan x) eqn:N; [discriminate|]. simpl orb.
  assert (A : forall a b, Binary64.lt a b = true -> SFleb a b = true).
  { intros a b. unfold Binary64.lt, SFltb, SFleb.
    now destruct (SFcompare a b) as [[| |]|]. }
  destruct (Binary64.lt x (Binary64.of_Z 100)) eqn:H.
  - unfold Binary64.max2. rewrite N.
    change (Binary64.is_nan (Binary64.of_Z 0)) with false. simpl orb.
    destruct (Binary64.lt (Binary64.of_Z 0) x) eqn:L; intros _.
    + split; now apply A.
    + now split.
  - intros _. now split.
Qed.

(** C2, as stated, fails on the equality with 100 x paidWeeks / weeksTotal:
    for 1 paid week of 3 the expression of the card, evaluated on doubles,
    is 4691249611844266 x 2^-47 (33.33333333333333), whereas 100 x 1 / 3
    evaluates to 4691249611844267 x 2^-47 (33.333333333333336); neither is
    the rational 100/3. *)
Lemma pct_one_third_counterexample :
  Binary64.pct (Binary64.of_Z 1) (Binary64.of_Z 3)
    = Binary64.finite false 4691249611844266 (-47) /\
  Binary64.div (Binary64.mul (Binary64.of_Z 100) (Binary64.of_Z 1))
               (Binary64.of_Z 3)
    = Binary64.finite false 4691249611844267 (-47) /\
  Binary64.pct (Binary64.of_Z 1) (Binary64.of_Z 3)
    <> Binary64.div (Binary64.mul (Binary64.of_Z 100) (Binary64.of_Z 1))
                    (Binary64.of_Z 3) /\
  4691249611844266 * 3 <> 100 * 2 ^ 47 /\
  4691249611844267 * 3 <> 100 * 2 ^ 47.
Proof.
  assert (E1 : Binary64.pct (Binary64.of_Z 1) (Binary64.of_Z 3)
               = Binary64.finite false 4691249611844266 (-47))
    by (vm_compute; reflexivity).
  assert (E2 : Binary64.div (Binary64.mul (Binary64.of_Z 100)
                                          (Binary64.of_Z 1))
                            (Binary64.of_Z 3)
               = Binary64.finite false 4691249611844267 (-47))
    by (vm_compute; reflexivity).
  split; [exact E1|]. split; [exact E2|]. split.
  - rewrite E1, E2. discriminate.
  - split; vm_compute; discriminate.
Qed.

(** C2 (amended): the progress percentage of a group is
    (paidWeeks / weeksTotal) x 100 brought into [0, 100]: 0 when it is
    below 0, 100 when it is above 100, and itself in between; with
    weeksTotal = 0 it is 0.  For weeksTotal > 0 and
    0 <= paidWeeks <= weeksTotal it is the value of
    (paidWeeks / weeksTotal) x 100 as the page computes it, unchanged by
    the clamp, and lies between 0 and 100.  On doubles, whatever the
    rounding, the percentage is NaN or lies between 0 and 100. *)
Theorem pct_progress :
  (forall g, le zero (totalWeeks g) = true ->
     pct g = if is_zero (totalWeeks g) then zero
             else clamped (mul (div (paidWeeks g) (totalWeeks g)) (of_Z 100))
                          zero (of_Z 100)) /\
  (forall g p t,
     paidWeeks g = Fin p -> totalWeeks g = Fin t ->
     (0 < t)%Qc -> (0 <= p)%Qc -> (p <= t)%Qc ->
     pct g = mul (div (Fin p) (Fin t)) (of_Z 100) /\
     le zero (pct g) = true /\ le (pct g) (of_Z 100) = true) /\
  (forall g, totalWeeks g = zero -> pct g = zero) /\
  (forall p t : Binary64.double,
     Binary64.is_nan (Binary64.pct p t) = false ->
     SFleb (Binary64.of_Z 0) (Binary64.pct p t) = true /\
     SFleb (Binary64.pct p t) (Binary64.of_Z 100) = true).
Proof.
  split; [|split; [|split; [|exact pct_binary64_bounds]]].
  - intros g. unfold pct, gt.
    change (of_Z 100) with (Fin hundred).
    rewrite <- (clamp_clamped _ 0%Qc hundred) by easy.
    destruct (totalWeeks g) as [| |t|]; try easy.
    simpl is_zero. simpl le. intros H. apply Qc_leb_le in H.
    destruct (Qc_eqb t 0) eqn:E.
    + apply Qc_eqb_eq in E. subst t. reflexivity.
    + assert (L : lt zero (Fin t) = true).
      { apply Qc_ltb_lt. destruct (Qcle_lt_or_eq _ _ H) as [L|L]; [exact L|].
        symmetry in L. apply Qc_eqb_eq in L. congruence. }
      now rewrite L.
  - intros g p t Hp Ht Hpos Hp0 Hpt.
    assert (L : lt zero (Fin t) = true) by now apply Qc_ltb_lt.
    assert (N : Qc_eqb t 0 = false).
    { destruct (Qc_eqb t 0) eqn:E; [|reflexivity].
      apply Qc_eqb_eq in E. now apply Qc_zero_lt_neq in Hpos. }
    assert (V : mul (div (Fin p) (Fin t)) (of_Z 100)
                = Fin (p / t * hundred)%Qc).
    { change (div (Fin p) (Fin t))
        with (if Qc_eqb t 0 then inf_of (sign (Fin p)) else Fin (p / t)%Qc).
      now rewrite N. }
    destruct (share_bounds hundred p t) as (E & Hlo & Hhi); trivial; [easy|].
    rewrite <- E in Hlo, Hhi.
    assert (P : pct g = Fin (p / t * hundred)%Qc).
    { unfold pct, gt. rewrite Hp, Ht, L, V. now apply clamp_in_range. }
    rewrite P, V. repeat split; now apply Qc_leb_le.
  - intros g E. unfold pct. now rewrite E.
Qed.

Lemma pct_progress_witness :
  pct (row 9 4 10)
    = clamped (mul (div (paidWeeks (row 9 4 10)) (totalWeeks (row 9 4 10)))
                   (of_Z 100)) zero (of_Z 100) /\
  (pct (row 1 3 10)
     = mul (div (Fin (Q2Qc (inject_Z 1))) (Fin (Q2Qc (inject_Z 3)))) (of_Z 100)
   /\ le zero (pct (row 1 3 10)) = true
   /\ le (pct (row 1 3 10)) (of_Z 100) = true) /\
  pct (row 2 0 10) = zero /\
  (SFleb (Binary64.of_Z 0)
         (Binary64.pct (Binary64.of_Z 9) (Binary64.of_Z 4)) = true /\
   SFleb (Binary64.pct (Binary64.of_Z 9) (Binary64.of_Z 4))
         (Binary64.of_Z 100) = true).
Proof.
  split; [|split; [|split]].
  - apply (proj1 pct_progress (row 9 4 10)). reflexivity.
  - apply (proj1 (proj2 pct_progress) (row 1 3 10)); now vm_compute.
  - apply (proj1 (proj2 (proj2 pct_progress)) (row 2 0 10)). reflexivity.
  - apply (proj2 (proj2 (proj2 pct_progress))). vm_compute. reflexivity.
Defined.

(** Beyond the range the bar is held at its ends: 9 weeks paid of 4 give
    100, and a negative count gives 0. *)
Lemma pct_saturates :
  pct (row 9 4 10) = of_Z 100 /\ pct (row (-1) 4 10) = zero.
Proof. split; apply Fin_ext; reflexivity. Qed.

(** The end-to-end figures: 2 of 4 weeks at 10 a week is 20 paid and 50%. *)
Lemma pct_example :
  paidAmount (row 2 4 10) = of_Z 20 /\ pct (row 2 4 10) = of_Z 50 /\
  pct (row 4 4 10) = of_Z 100 /\ pct (row 9 4 10) = of_Z 100.
Proof. repeat split; apply Fin_ext; reflexivity. Qed.

(** *** [targetPerMember] *)

(** C6, as stated, fails: for a collection whose first row has
    [weeks_total = 0] the code answers the fallback 40, not 0 x 10 = 0. *)
Lemma targetPerMember_zero_weeks_counterexample :
  [row 2 0 10] <> [] /\
  targetPerMember (stats [row 2 0 10]) = of_Z 40 /\
  targetPerMember (stats [row 2 0 10])
    <> mul (totalWeeks (row 2 0 10)) (weekly (row 2 0 10)).
Proof.
  split; [discriminate|]. split; [reflexivity|].
  apply Fin_neq. reflexivity.
Qed.

(** C6 (amended): [targetPerMember] is weeksTotal x weeklyAmount of the
    first group when the collection is non-empty and that group's
    [weeks_total] is truthy (present and not zero); it is the fallback
    constant 40 when no groups exist, and also when the first group's
    [weeks_total] is missing or zero. *)
Theorem targetPerMember_first_row :
  (forall g gs, truthy (weeks_total g) = true ->
     targetPerMember (stats (g :: gs)) = mul (totalWeeks g) (weekly g)) /\
  (forall g gs, truthy (weeks_total g) = false ->
     targetPerMember (stats (g :: gs)) = of_Z 40) /\
  targetPerMember (stats []) = of_Z 40.
Proof.
  repeat split.
  - intros g gs T. unfold stats, totalWeeks, weekly, or_else; simpl.
    now rewrite T.
  - intros g gs T. unfold stats; simpl. now rewrite T.
Qed.

Lemma targetPerMember_first_row_witness :
  targetPerMember (stats [row 2 4 10; row 0 5 20])
    = mul (totalWeeks (row 2 4 10)) (weekly (row 2 4 10)) /\
  targetPerMember (stats [row_missing_total; row 2 4 10]) = of_Z 40.
Proof.
  split.
  - apply (proj1 targetPerMember_first_row). reflexivity.
  - apply (proj1 (proj2 targetPerMember_first_row)). reflexivity.
Defined.

(** A numeric [weeks_total] is truthy exactly when it is not zero. *)
Lemma truthy_weeks_total (t : Qc) : truthy (JNum (Fin t)) = true <-> t <> 0%Qc.
Proof.
  simpl. rewrite negb_true_iff. split.
  - intros E ->. simpl in E. discriminate.
  - intros N. destruct (Qc_eqb t 0) eqn:E; [|reflexivity].
    now apply Qc_eqb_eq in E.
Qed.

(** *** [fullMonthPaid] *)

Lemma counts_filter (f : GroupRow -> bool) (gs : list GroupRow) :
  counts (fun g => f g = true) gs (List.length (filter f gs)).
Proof.
  induction gs as [|g gs IH]; simpl; [constructor|].
  destruct (f g) eqn:E; simpl.
  - now apply counts_in.
  - apply counts_out; [congruence|assumption].
Qed.

Lemma counts_unique (P : GroupRow -> Prop) (gs : list GroupRow) (n m : nat) :
  counts P gs n -> counts P gs m -> n = m.
Proof.
  intros Hn. revert m.
  induction Hn; intros m Hm; inversion Hm; subst; auto; contradiction.
Qed.

(** C7: [fullMonthPaid] counts exactly the groups whose paidWeeks is at least
    weeksTotal; the two groups (paid 4 of 4) and (paid 2 of 4) give 1. *)
Theorem fullMonthPaid_counts :
  (forall gs n, counts full_month gs n <-> n = fullMonthPaid (stats gs)) /\
  fullMonthPaid (stats [row 4 4 10; row 2 4 10]) = 1%nat.
Proof.
  split; [|reflexivity].
  intros gs n.
  assert (C : counts full_month gs (fullMonthPaid (stats gs)))
    by apply (counts_filter (fun g => ge (paidWeeks g) (totalWeeks g))).
  split.
  - intros Hn. eapply counts_unique; eassumption.
  - now intros ->.
Qed.

(** For numeric fields the test is the order of the rationals. *)
Lemma full_month_Fin (g : GroupRow) (p t : Qc) :
  paidWeeks g = Fin p -> totalWeeks g = Fin t ->
  full_month g <-> (t <= p)%Qc.
Proof.
  unfold full_month. intros -> ->. simpl. apply Qc_leb_le.
Qed.

(** *** [monthWeeks] *)



(** A [weeks_total] that is not a number makes [monthWeeks] NaN. *)
Lemma monthWeeks_text_example :
  monthWeeks (stats [row 2 4 10; mkGroupRow "t" "text" js0 (JStr "abc") js0 ""])
  = NaN.
Proof. reflexivity. Qed.

End ViewerFacts.

(** * The admin page *)

Section AdminFacts.

Import Admin AdminSample.

(** *** Transitions, taken apart *)

Lemma effects_idle (before : state) (c : config) :
  isAdmin (st c) = isAdmin before -> effects before c = c.
Proof. unfold effects. intros ->. now destruct (isAdmin before). Qed.

Lemma handle_idle (k : cmd) (c : config) :
  isAdmin (st (k c)) = isAdmin (st c) -> handle k c = k c.
Proof. apply effects_idle. Qed.

Lemma handle_fields (k : cmd) (c : config) :
  let c' := handle k c in
  userEmail (st c') = userEmail (st (k c)) /\
  isAdmin (st c') = isAdmin (st (k c)) /\
  groups (st c') = groups (st (k c)) /\
  savingId (st c') = savingId (st (k c)).
Proof.
  unfold handle, effects.
  destruct (negb (isAdmin (st c)) && isAdmin (st (k c))); now repeat split.
Qed.

Lemma resume_Some (t : task) (k : cmd) (c c' : config) :
  resume t k c = Some c' ->
  existsb (task_eqb t) (pending c) = true /\
  c' = handle k (mkConfig (st c) (remove_first t (pending c)) (sent c)).
Proof.
  unfold resume. destruct (existsb _ _); [|discriminate].
  now intros [= <-].
Qed.

Lemma guarded_Some (b : bool) (k : cmd) (c c' : config) :
  guarded b k c = Some c' -> b = true /\ c' = handle k c.
Proof. unfold guarded. destruct b; [|discriminate]. now intros [= <-]. Qed.

Lemma task_eqb_eq (a b : task) : task_eqb a b = true <-> a = b.
Proof.
  destruct a, b; simpl; try (split; [discriminate|congruence]);
    try (split; reflexivity).
  - rewrite String.eqb_eq. split; congruence.
  - rewrite Bool.eqb_true_iff. split; congruence.
  - rewrite String.eqb_eq. split; congruence.
Qed.

Lemma existsb_task_In (t : task) (ts : list task) :
  existsb (task_eqb t) ts = true <-> In t ts.
Proof.
  rewrite existsb_exists. split.
  - intros (u & Hu & E). apply task_eqb_eq in E. now subst.
  - intros H. exists t. split; [assumption|]. now apply task_eqb_eq.
Qed.

Lemma In_remove_first (t u : task) (ts : list task) :
  In u (remove_first t ts) -> In u ts.
Proof.
  induction ts as [|v ts IH]; simpl; [trivial|].
  destruct (task_eqb t v); simpl; intuition.
Qed.

(** *** Authorization *)

Lemma canEdit_isAdmin (s : state) : canEdit s = true -> isAdmin s = true.
Proof.
  unfold canEdit. destruct (userEmail s) as [e|]; [|discriminate].
  now destruct (String.eqb e "").
Qed.






(** *** The mutation protocol *)

(** Starting a save: the controls must be enabled; the typed value goes to
    the store as it is; nothing displayed changes but the message and the
    saving mark. *)
Lemma save_start (c c' : config) (gid text : string) :
  step c (ClickSave gid text) = Some c' \/
  step c (PressEnter gid text) = Some c' ->
  canEdit (st c) = true /\ has_group (st c) gid = true /\
  msg (st c') = None /\ savingId (st c') = Some gid /\
  groups (st c') = groups (st c) /\
  sent c' = sent c ++ [ReqUpdate gid (Number (JStr text))] /\
  pending c' = pending c ++ [AwaitUpdate gid] /\
  controls_disabled (st c') gid = true.
Proof.
  intros H.
  assert (G : guarded (has_group (st c) gid &&
                       negb (controls_disabled (st c) gid))
                      (savePaidWeeks gid (Number (JStr text))) c = Some c')
    by now destruct H.
  clear H. apply guarded_Some in G as [G ->].
  apply andb_prop in G as [Hg Hd]. rewrite negb_true_iff in Hd.
  apply orb_false_elim in Hd as [He _]. rewrite negb_false_iff in He.
  rewrite handle_idle by reflexivity.
  repeat split; trivial.
  unfold controls_disabled, saving_this; simpl.
  rewrite String.eqb_refl. apply orb_true_r.
Qed.

(** A failed save: the store's message is shown, the saving mark is removed,
    the displayed rows stay as they were and nothing is read again. *)
Lemma save_failure (c c' : config) (gid m : string) :
  step c (UpdateResp gid (Some m)) = Some c' ->
  msg (st c') = Some ("Save failed: " ++ m)%string /\
  savingId (st c') = None /\
  groups (st c') = groups (st c) /\
  sent c' = sent c.
Proof.
  intros H. apply resume_Some in H as [_ ->].
  rewrite handle_idle by reflexivity. now repeat split.
Qed.

(** A successful save: the rows are read again; what this run leaves to be
    rendered has no message, the confirmation being overwritten by
    [loadGroups]. *)
Lemma save_success (c c' : config) (gid : string) :
  step c (UpdateResp gid None) = Some c' ->
  msg (st c') = None /\
  loadingGroups (st c') = true /\
  savingId (st c') = savingId (st c) /\
  groups (st c') = groups (st c) /\
  sent c' = sent c ++ [ReqSelectGroups] /\
  In (AwaitLoad true) (pending c').
Proof.
  intros H. apply resume_Some in H as [_ ->].
  rewrite handle_idle by reflexivity. repeat split.
  simpl. apply in_or_app. right. now left.
Qed.

(** The reload after a save replaces the whole collection by the rows of the
    answer, and ends the save. *)
Lemma reload_replaces (c c' : config) (data : option (list GroupRow)) :
  step c (LoadResp true data None) = Some c' ->
  groups (st c') = match data with Some rows => rows | None => [] end /\
  msg (st c') = msg (st c) /\
  savingId (st c') = None /\
  loadingGroups (st c') = false.
Proof.
  intros H. apply resume_Some in H as [_ ->].
  rewrite handle_idle by reflexivity. now repeat split.
Qed.

(** C3, on the code: an admin types 99 for a group of 4 weeks and presses
    Enter; the update sent to the store carries 99. *)
Theorem save_out_of_range_value_sent :
  exists c,
    run init (admin_session ++ [PressEnter "a" "99"]) = Some c /\
    weeks_total group_a = JNum (of_Z 4) /\
    Number (JStr "99") = of_Z 99 /\
    le (of_Z 99) (of_Z 4) = false /\
    In (ReqUpdate "a" (Number (JStr "99"))) (sent c).
Proof.
  eexists. split; [vm_compute; reflexivity|]. split; [reflexivity|].
  split; [apply Fin_ext; reflexivity|]. split; [vm_compute; reflexivity|].
  do 3 right. left. vm_compute. reflexivity.
Qed.

(** The same holds below the range. *)
Lemma save_negative_value_sent :
  exists c,
    run init (admin_session ++ [ClickSave "a" "-1"]) = Some c /\
    lt (Number (JStr "-1")) zero = true /\
    In (ReqUpdate "a" (Number (JStr "-1"))) (sent c).
Proof.
  eexists. split; [vm_compute; reflexivity|].
  split; [vm_compute; reflexivity|].
  do 3 right. left. vm_compute. reflexivity.
Qed.

(** C5, on the code: after a save that the store accepts, no rendered state
    carries the confirmation: the run that sets it also calls [loadGroups],
    which clears the message, and the reload leaves it cleared. *)
Theorem save_confirmation_overwritten :
  exists c1 c2 c3,
    run init (admin_session ++ [ClickSave "a" "3"]) = Some c1 /\
    step c1 (UpdateResp "a" None) = Some c2 /\
    step c2 (LoadResp true (Some [group_a; group_b]) None) = Some c3 /\
    msg (st c1) = None /\ msg (st c2) = None /\ msg (st c3) = None.
Proof.
  do 3 eexists. split; [vm_compute; reflexivity|].
  split; [vm_compute; reflexivity|].
  split; [vm_compute; reflexivity|]. now repeat split.
Qed.

(** C8, on the code: with the save of group a in flight, starting the save
    of group b moves the single saving mark to b; the controls of a are
    enabled again, and a second write for a is accepted. *)
Theorem second_save_enables_first :
  exists c c',
    run init (admin_session ++ [ClickSave "a" "3"; ClickSave "b" "1"])
      = Some c /\
    In (AwaitUpdate "a") (pending c) /\
    controls_disabled (st c) "a" = false /\
    step c (ClickSave "a" "4") = Some c' /\
    pending c' = [AwaitUpdate "a"; AwaitUpdate "b"; AwaitUpdate "a"].
Proof.
  do 2 eexists. split; [vm_compute; reflexivity|]. split; [simpl; auto|].
  split; [reflexivity|]. split; vm_compute; reflexivity.
Qed.

(** The mark does cover the group whose save was started last. *)
Lemma saving_mark_disables (s : state) (gid : string) :
  savingId s = Some gid -> controls_disabled s gid = true.
Proof.
  intros H. unfold controls_disabled, saving_this. rewrite H.
  rewrite String.eqb_refl. apply orb_true_r.
Qed.

(** *** When the groups are read *)

Lemma handle_not_admin (k : cmd) (c : config) :
  isAdmin (st (handle k c)) = false -> handle k c = k c.
Proof.
  unfold handle, effects.
  destruct (negb (isAdmin (st c)) && isAdmin (st (k c))) eqn:E; [|reflexivity].
  apply andb_prop in E as [_ E]. simpl. congruence.
Qed.

Lemma issues_inv (c c' : config) (r : request) (new : list request) :
  sent c' = sent c ++ new -> issues c c' r -> In r new.
Proof.
  intros E (before & E' & Hin). rewrite E in E'.
  apply app_inv_head in E'. now subst.
Qed.

Lemma issues_none (c c' : config) (r : request) :
  sent c' = sent c -> ~ issues c c' r.
Proof.
  intros E H. apply (issues_inv c c' r []) in H; [contradiction|].
  now rewrite app_nil_r.
Qed.

(** C10, as stated, fails: a save is in flight when the admin signs out;
    when the store then accepts it, the page reads the groups although
    [isAdmin] is false, and shows the rows of the answer. *)
Lemma read_without_admin_counterexample :
  exists c c' c'',
    reachable c /\
    run init sign_out_during_save = Some c /\
    isAdmin (st c) = false /\ groups (st c) = [] /\
    step c (UpdateResp "a" None) = Some c' /\
    isAdmin (st c') = false /\ issues c c' ReqSelectGroups /\
    step c' (LoadResp true (Some [group_a; group_b]) None) = Some c'' /\
    isAdmin (st c'') = false /\ groups (st c'') = [group_a; group_b].
Proof.
  do 3 eexists.
  split; [exists sign_out_during_save; vm_compute; reflexivity|].
  split; [reflexivity|].
  split; [reflexivity|]. split; [reflexivity|].
  split; [vm_compute; reflexivity|]. split; [reflexivity|].
  split; [exists [ReqSelectGroups]; split; [reflexivity|now left]|].
  split; [vm_compute; reflexivity|]. split; reflexivity.
Qed.

Lemma within_holds (P : config -> Prop) (c : config) :
  reachable_within P c -> P c.
Proof. now destruct 1. Qed.

Ltac expose H :=
  cbv [refreshAuth refreshAuth_user refreshAuth_role loadGroups
       loadGroups_resume sendMagicLink sendMagicLink_resume signOut
       signOut_resume savePaidWeeks savePaidWeeks_resume seq skip send await
       on_state setUserEmail setIsAdmin setEmailInput setSending setMsg
       setGroups setLoadingGroups setSavingId] in H;
  simpl in H.

Ltac in_new H :=
  expose H; rewrite ?in_app_iff in H; simpl in H;
  repeat match type of H with
         | _ \/ _ => destruct H as [H|H]
         | In _ (remove_first _ _) => apply In_remove_first in H
         end;
  try discriminate; try contradiction; eauto.

Ltac settle :=
  split; [|split; [|split]];
  [ first [ reflexivity
          | match goal with G : groups _ = [] |- _ => exact G end ]
  | intros H; in_new H
  | intros b H; in_new H
  | intros g H; in_new H ].

Lemma nothing_loaded_step (c c' : config) (e : event) :
  nothing_loaded c -> isAdmin (st c) = false ->
  step c e = Some c' -> isAdmin (st c') = false ->
  nothing_loaded c'.
Proof.
  intros (Hg & Hs & Hl & Hu) Ha Hstep Ha'.
  assert (Hss : In ReqSelectGroups (sent c) -> False) by exact Hs.
  assert (Hsl : forall b, In (AwaitLoad b) (pending c) -> False) by exact Hl.
  assert (Hsu : forall g, In (AwaitUpdate g) (pending c) -> False) by exact Hu.
  destruct e; simpl in Hstep;
    try (apply resume_Some in Hstep as [Hp ->]; apply existsb_task_In in Hp);
    try (apply guarded_Some in Hstep as [Hb ->]);
    try (injection Hstep as <-);
    try (rewrite handle_not_admin in * by assumption).
  - settle.
  - destruct u; settle.
  - settle.
  - now apply Hl in Hp.
  - now apply Hu in Hp.
  - settle.
  - destruct error; settle.
  - settle.
  - settle.
  - settle.
  - unfold has_group in Hb. rewrite Hg in Hb. discriminate.
  - unfold has_group in Hb. rewrite Hg in Hb. discriminate.
  - apply canEdit_isAdmin in Hb. congruence.
Qed.

(** C10 (amended): as long as the role has not resolved to admin, the admin
    page issues no group read and its displayed list stays empty; and a
    group read is only ever issued by a transition that leaves [isAdmin]
    true, or as the reload that follows a save the store accepted. *)
Theorem group_read_gate :
  (forall c, reachable_within (fun c => isAdmin (st c) = false) c ->
     groups (st c) = [] /\ ~ In ReqSelectGroups (sent c)) /\
  (forall c e c', step c e = Some c' -> issues c c' ReqSelectGroups ->
     isAdmin (st c') = true \/ exists gid, e = UpdateResp gid None).
Proof.
  split.
  - intros c R.
    assert (N : nothing_loaded c).
    { induction R as [_|c e c' R IH Hstep Ha'].
      - repeat split; simpl; intuition discriminate.
      - apply (nothing_loaded_step c c' e); trivial.
        now apply within_holds in R. }
    destruct N as (Hg & Hs & _). now split.
  - intros c e c' Hstep Hi.
    destruct (isAdmin (st c')) eqn:Ha'; [now left|right].
    destruct e; simpl in Hstep;
      try (apply resume_Some in Hstep as [Hp ->]);
      try (apply guarded_Some in Hstep as [Hb ->]);
      try (injection Hstep as <-);
      rewrite handle_not_admin in * by assumption.
    + apply (issues_inv _ _ _ [ReqGetUser]) in Hi; [in_new Hi|reflexivity].
    + destruct u.
      * apply (issues_inv _ _ _ [ReqRole (user_id u)]) in Hi;
          [in_new Hi|reflexivity].
      * now apply issues_none in Hi.
    + now apply issues_none in Hi.
    + destruct error, saving; now apply issues_none in Hi.
    + destruct error as [m|]; [|now exists gid].
      now apply issues_none in Hi.
    + now apply issues_none in Hi.
    + destruct error; now apply issues_none in Hi.
    + now apply issues_none in Hi.
    + apply (issues_inv _ _ _ [ReqOtp (emailInput (st c))]) in Hi;
        [in_new Hi|reflexivity].
    + apply (issues_inv _ _ _ [ReqSignOut]) in Hi; [in_new Hi|reflexivity].
    + apply (issues_inv _ _ _ [ReqUpdate gid (Number (JStr text))]) in Hi;
        [in_new Hi|reflexivity].
    + apply (issues_inv _ _ _ [ReqUpdate gid (Number (JStr text))]) in Hi;
        [in_new Hi|reflexivity].
    + apply canEdit_isAdmin in Hb. simpl in Ha'. congruence.
Qed.

Lemma group_read_gate_witness :
  (groups (st (after [GetUserResp (Some plain_user); RoleResp "u-plain" None]))
     = [] /\
   ~ In ReqSelectGroups
        (sent (after [GetUserResp (Some plain_user); RoleResp "u-plain" None])))
  /\
  (isAdmin (st (after [GetUserResp (Some admin_user);
                       RoleResp "u-admin" (Some "admin"%string)])) = true \/
   exists gid,
     RoleResp "u-admin" (Some "admin"%string) = UpdateResp gid None).
Proof.
  split.
  - apply (proj1 group_read_gate).
    apply within_step
      with (c := after [GetUserResp (Some plain_user)])
           (e := RoleResp "u-plain" None);
      [|vm_compute; reflexivity|reflexivity].
    apply within_step with (c := init) (e := GetUserResp (Some plain_user));
      [|vm_compute; reflexivity|reflexivity].
    apply within_init. reflexivity.
  - apply (proj2 group_read_gate
                 (after [GetUserResp (Some admin_user)])
                 (RoleResp "u-admin" (Some "admin"%string))).
    + vm_compute. reflexivity.
    + exists [ReqSelectGroups]. split; [vm_compute; reflexivity|now left].
Defined.

End AdminFacts.

(** * More on the viewer's metrics *)

Section ViewerMore.

Import Viewer ViewerSpec Home.

Lemma totalCollected_text_NaN_witness :
  totalCollected (stats [row 2 4 10; row_text_paid]) = NaN.
Proof.
  apply (totalCollected_text_NaN _ row_text_paid).
  - right. now left.
  - left. reflexivity.
Defined.

(** The count of full months never exceeds the number of members, and
    reaches it exactly when every row has paid its full month. *)
Theorem fullMonthPaid_le_members (gs : list GroupRow) :
  (fullMonthPaid (stats gs) <= members (stats gs))%nat /\
  (fullMonthPaid (stats gs) = members (stats gs) <-> Forall full_month gs).
Proof.
  change (fullMonthPaid (stats gs))
    with (List.length (filter (fun g => ge (paidWeeks g) (totalWeeks g)) gs)).
  change (members (stats gs)) with (List.length gs).
  split; [apply filter_length_le|].
  induction gs as [|g gs IH]; simpl.
  - split; [constructor|reflexivity].
  - pose proof (filter_length_le (fun g => ge (paidWeeks g) (totalWeeks g)) gs)
      as L.
    destruct (ge (paidWeeks g) (totalWeeks g)) eqn:E; simpl.
    + split.
      * intros [= H]. constructor; [exact E|now apply IH].
      * intros H. inversion H; subst. f_equal. now apply IH.
    + split.
      * intros H. lia.
      * intros H. inversion H; subst. unfold full_month in *. congruence.
Qed.

Lemma max2_NaN_r (a : num) : max2 a NaN = NaN.
Proof. now destruct a. Qed.

Lemma Math_max_NaN (xs : list num) : fold_left max2 xs NaN = NaN.
Proof. induction xs; simpl; trivial. Qed.

Lemma Math_max_poisoned (xs : list num) (a : num) :
  In NaN xs -> fold_left max2 xs a = NaN.
Proof.
  revert a. induction xs as [|x xs IH]; intros a; simpl; [contradiction|].
  intros [->|H]; [|now apply IH].
  rewrite max2_NaN_r. apply Math_max_NaN.
Qed.

(** One row whose [weeks_total] does not coerce to a number makes
    [monthWeeks] NaN. *)
Theorem monthWeeks_NaN (gs : list GroupRow) (g : GroupRow) :
  In g gs -> totalWeeks g = NaN -> monthWeeks (stats gs) = NaN.
Proof.
  intros Hin E. destruct gs as [|h gs]; [contradiction|].
  change (monthWeeks (stats (h :: gs)))
    with (fold_left max2 (map totalWeeks (h :: gs)) NInf).
  apply Math_max_poisoned. rewrite <- E. now apply in_map.
Qed.

Lemma monthWeeks_NaN_witness :
  monthWeeks (stats [row 2 4 10;
                     mkGroupRow "t" "text" js0 (JStr "four") js0 ""]) = NaN.
Proof.
  apply (monthWeeks_NaN _ (mkGroupRow "t" "text" js0 (JStr "four") js0 "")).
  - right. now left.
  - reflexivity.
Defined.

(** *** The progress bar *)

Lemma between_Fin (r : num) (lo hi : Qc) :
  le (Fin lo) r = true -> le r (Fin hi) = true ->
  exists x, r = Fin x /\ (lo <= x)%Qc /\ (x <= hi)%Qc.
Proof.
  destruct r as [| |x|]; simpl; try discriminate.
  rewrite !Qc_leb_le. intros H1 H2. now exists x.
Qed.

Lemma positive_total (T : num) :
  gt T zero = true -> T = PInf \/ exists t, T = Fin t /\ (0 < t)%Qc.
Proof.
  unfold gt. destruct T as [| |t|]; simpl; try discriminate.
  - intros H. right. exists t. split; [reflexivity|now apply Qc_ltb_lt].
  - now left.
Qed.

Lemma pct_finite_range (g : GroupRow) (p : Qc) :
  paidWeeks g = Fin p ->
  exists x, pct g = Fin x /\ (0 <= x)%Qc /\ (x <= hundred)%Qc.
Proof.
  intros Hp. unfold pct. rewrite Hp.
  destruct (gt (totalWeeks g) zero) eqn:G.
  - assert (N : is_nan (mul (div (Fin p) (totalWeeks g)) (of_Z 100)) = false).
    { apply positive_total in G as [->|(t & -> & Ht)]; [reflexivity|].
      simpl. destruct (Qc_eqb t 0) eqn:E; [|reflexivity].
      apply Qc_eqb_eq in E. now apply Qc_zero_lt_neq in Ht. }
    destruct (clamp_bounds _ 0%Qc hundred N) as [L H]; [easy|].
    now apply between_Fin.
  - exists 0%Qc. repeat split; easy.
Qed.

(** Whatever the row holds for its total, a card whose paid weeks are a
    finite number has a bar between 0 and 100 and a whole percentage between
    0 and 100 printed, also when paid weeks are negative or exceed the
    total; paid weeks that are not a number give a NaN bar. *)
Theorem pct_within_bar :
  (forall g p, paidWeeks g = Fin p ->
     le zero (pct g) = true /\ le (pct g) (of_Z 100) = true /\
     exists k, pct_label g = of_Z k /\ 0 <= k <= 100) /\
  (forall g, paidWeeks g = NaN -> gt (totalWeeks g) zero = true ->
     pct g = NaN).
Proof.
  split.
  - intros g p Hp. destruct (pct_finite_range g p Hp) as (x & E & L & H).
    unfold pct_label. rewrite E. repeat split.
    + now apply Qc_leb_le.
    + now apply Qc_leb_le.
    + exists (Qfloor (x + (1 # 2))). split; [reflexivity|].
      unfold Qcle in L, H. split.
      * change 0 with (Qfloor (0 + (1 # 2))). apply Qfloor_resp_le.
        now apply Qplus_le_l.
      * change 100 with (Qfloor (this hundred + (1 # 2))).
        apply Qfloor_resp_le. now apply Qplus_le_l.
  - intros g Hp G. unfold pct. rewrite G, Hp.
    now destruct (totalWeeks g).
Qed.

Lemma pct_within_bar_witness :
  (le zero (pct (row 9 4 10)) = true /\
   le (pct (row 9 4 10)) (of_Z 100) = true /\
   exists k, pct_label (row 9 4 10) = of_Z k /\ 0 <= k <= 100) /\
  pct row_text_paid = NaN.
Proof.
  split.
  - apply (proj1 pct_within_bar (row 9 4 10) (Q2Qc (inject_Z 9))).
    reflexivity.
  - apply (proj2 pct_within_bar row_text_paid); reflexivity.
Defined.

Lemma share_full (c p t : Qc) :
  (0 < c)%Qc -> (0 < t)%Qc ->
  ((t <= p)%Qc -> (c <= p / t * c)%Qc) /\
  ((p < t)%Qc -> (p / t * c < c)%Qc).
Proof.
  intros Hc Ht. pose proof (Qc_zero_lt_neq t Ht) as Hn.
  assert (E : (p / t * c * t = p * c)%Qc) by (field; exact Hn).
  split; intros H.
  - apply Qcmult_lt_0_le_reg_r with (z := t); [exact Ht|].
    rewrite E, (Qcmult_comm c t).
    apply Qcmult_le_compat_r; [exact H|now apply Qclt_le_weak].
  - apply Qcnot_le_lt. intros L.
    apply (Qcmult_le_compat_r _ _ t) in L; [|now apply Qclt_le_weak].
    rewrite E, (Qcmult_comm c t) in L.
    apply Qcmult_lt_0_le_reg_r in L; [|exact Hc].
    now apply Qclt_not_le in H.
Qed.

(** Among the rows with a positive total, the cards with a full bar are
    exactly the rows counted in [fullMonthPaid]; a row whose total is zero
    or missing is counted as soon as its paid weeks are not negative,
    although its bar is empty. *)
Theorem full_bar_iff_full_month :
  (forall g p t, paidWeeks g = Fin p -> totalWeeks g = Fin t -> (0 < t)%Qc ->
     (pct g = of_Z 100 <-> full_month g)) /\
  (forall g, totalWeeks g = zero -> le zero (paidWeeks g) = true ->
     full_month g /\ pct g = zero).
Proof.
  split.
  - intros g p t Hp Ht Hpos.
    rewrite (full_month_Fin g p t Hp Ht).
    assert (L : lt zero (Fin t) = true) by now apply Qc_ltb_lt.
    assert (N : Qc_eqb t 0 = false).
    { destruct (Qc_eqb t 0) eqn:E; [|reflexivity].
      apply Qc_eqb_eq in E. now apply Qc_zero_lt_neq in Hpos. }
    assert (E : pct g = clamp (Fin (p / t * hundred)%Qc) zero (Fin hundred)).
    { unfold pct, gt. rewrite Hp, Ht, L.
      change (div (Fin p) (Fin t))
        with (if Qc_eqb t 0 then inf_of (sign (Fin p)) else Fin (p / t)%Qc).
      now rewrite N. }
    rewrite E. clear E.
    destruct (share_full hundred p t) as [Hfull Hpart]; [easy|exact Hpos|].
    change (of_Z 100) with (Fin hundred). unfold clamp.
    destruct (Qclt_le_dec p t) as [C|C].
    + apply Hpart in C.
      assert (M : min2 (Fin hundred) (Fin (p / t * hundred)%Qc)
                  = Fin (p / t * hundred)%Qc).
      { simpl. apply Qc_ltb_lt in C. now rewrite C. }
      rewrite M. split.
      * intros H. exfalso. simpl in H.
        destruct (Qc_ltb 0 (p / t * hundred)).
        -- apply (f_equal (fun n => match n with Fin q => q | _ => 0%Qc end))
             in H.
           apply Qclt_not_eq in C. now apply C.
        -- revert H. now apply Fin_neq.
      * intros H. apply Hfull in H. now apply Qclt_not_le in C.
    + split; [now intros _|]. intros _. apply Hfull in C.
      assert (M : min2 (Fin hundred) (Fin (p / t * hundred)%Qc) = Fin hundred).
      { simpl. apply Qc_ltb_ge in C. now rewrite C. }
      rewrite M. reflexivity.
  - intros g Ht Hp. unfold full_month, ge, pct. rewrite Ht. now split.
Qed.

Lemma full_bar_iff_full_month_witness :
  (pct (row 5 4 10) = of_Z 100 <-> full_month (row 5 4 10)) /\
  (full_month (mkGroupRow "n" "new" JNull JNull JNull "") /\
   pct (mkGroupRow "n" "new" JNull JNull JNull "") = zero).
Proof.
  split.
  - apply (proj1 full_bar_iff_full_month (row 5 4 10)
                 (Q2Qc (inject_Z 5)) (Q2Qc (inject_Z 4))); reflexivity.
  - apply (proj2 full_bar_iff_full_month); reflexivity.
Defined.

(** *** Loading the rows *)

(** A load of the viewer ends with the loading mark removed and shows either
    the rows of the answer and no message, or, when the store reports an
    error, the error message and no rows at all, whatever rows came with
    it; the header then falls back to 0 members, 4 weeks, nothing collected
    and a target of 40. *)
Theorem home_load_outcome (s : Home.state) (data : option (list GroupRow))
    (error : option string) :
  let s' := Home.loadGroups_resume data error (Home.loadGroups s) in
  Home.loading s' = false /\
  cards s' = Home.groups s' /\
  match error with
  | Some m =>
      Home.groups s' = [] /\
      Home.msg s' = Some ("Load error: " ++ m)%string /\
      stats (Home.groups s') = mkFundStats 0 (of_Z 4) zero 0 (of_Z 40)
  | None =>
      Home.groups s' = match data with Some rows => rows | None => [] end /\
      Home.msg s' = None
  end.
Proof. destruct error; now repeat split. Qed.

End ViewerMore.

(** * More on the admin page *)

Section AdminMore.

Import Admin AdminSample AdminCount.

Lemma handle_idle_false (k : cmd) (c : config) :
  isAdmin (st (k c)) = false -> handle k c = k c.
Proof.
  unfold handle, effects. intros ->. now rewrite andb_false_r.
Qed.

Ltac open_step H :=
  simpl in H;
  first [ apply resume_Some in H as [?Hp ->]
        | apply guarded_Some in H as [?Hb ->]
        | injection H as <- ].

(** Every accepted event extends the log by the requests listed for it. *)
Lemma step_sent (c c' : config) (e : event) :
  step c e = Some c' -> sent c' = sent c ++ requested c e.
Proof.
  intros H. destruct e; open_step H;
    try (rewrite handle_idle by reflexivity; simpl;
         rewrite ?app_nil_r; reflexivity).
  - destruct u; [rewrite handle_idle by reflexivity; reflexivity|].
    rewrite handle_idle_false by reflexivity. simpl. now rewrite app_nil_r.
  - unfold handle, effects. simpl.
    destruct role as [r|]; simpl.
    + destruct (negb (isAdmin (st c)) && String.eqb r "admin"); simpl;
        [reflexivity|now rewrite app_nil_r].
    + rewrite andb_false_r. simpl. now rewrite app_nil_r.
  - destruct error, saving; rewrite handle_idle by reflexivity; simpl;
      now rewrite app_nil_r.
  - destruct error; rewrite handle_idle by reflexivity; simpl;
      [now rewrite app_nil_r|reflexivity].
  - destruct error; rewrite handle_idle by reflexivity; simpl;
      now rewrite app_nil_r.
Qed.

Lemma issues_requested (c c' : config) (e : event) (r : request) :
  step c e = Some c' -> issues c c' r -> In r (requested c e).
Proof.
  intros H Hi. eapply issues_inv; [|exact Hi]. now apply step_sent.
Qed.

(** *** What the page sends *)

Lemma update_request_inv
    (c c' : config) (e : event) (gid : string) (v : num) :
  step c e = Some c' -> In (ReqUpdate gid v) (requested c e) ->
  canEdit (st c) = true /\ has_group (st c) gid = true /\
  controls_disabled (st c) gid = false /\
  exists text, v = Number (JStr text) /\
               (e = ClickSave gid text \/ e = PressEnter gid text).
Proof.
  intros H Hin.
  destruct e; simpl in Hin;
    try (destruct Hin as [Hin|[]]; discriminate); try contradiction.
  - destruct u; [destruct Hin as [Hin|[]]; discriminate|contradiction].
  - destruct role; [|contradiction].
    destruct (negb _ && _); [destruct Hin as [Hin|[]]; discriminate|
                              contradiction].
  - destruct error; [contradiction|destruct Hin as [Hin|[]]; discriminate].
  - destruct Hin as [[= <- <-]|[]]. open_step H.
    apply andb_prop in Hb as [Hg Hd]. rewrite negb_true_iff in Hd.
    pose proof Hd as He. apply orb_false_elim in He as [He _].
    rewrite negb_false_iff in He.
    split; [|split; [|split]]; trivial. exists text. auto.
  - destruct Hin as [[= <- <-]|[]]. open_step H.
    apply andb_prop in Hb as [Hg Hd]. rewrite negb_true_iff in Hd.
    pose proof Hd as He. apply orb_false_elim in He as [He _].
    rewrite negb_false_iff in He.
    split; [|split; [|split]]; trivial. exists text. auto.
Qed.

(** An update goes to the store only from the Save button or the Enter key
    of a displayed group whose controls are enabled, hence only while
    [canEdit] holds; it carries the group's id and the number read from the
    text of the input. *)
Theorem update_only_from_enabled_controls
    (c c' : config) (e : event) (gid : string) (v : num) :
  step c e = Some c' -> issues c c' (ReqUpdate gid v) ->
  canEdit (st c) = true /\ has_group (st c) gid = true /\
  controls_disabled (st c) gid = false /\
  exists text, v = Number (JStr text) /\
               (e = ClickSave gid text \/ e = PressEnter gid text).
Proof.
  intros H Hi. apply (update_request_inv c c'); [exact H|].
  now apply (issues_requested c c').
Qed.

Lemma update_only_from_enabled_controls_witness :
  canEdit (st (after admin_session)) = true /\
  has_group (st (after admin_session)) "b" = true /\
  controls_disabled (st (after admin_session)) "b" = false /\
  exists text, Number (JStr "2") = Number (JStr text) /\
               (PressEnter "b" "2" = ClickSave "b" text \/
                PressEnter "b" "2" = PressEnter "b" text).
Proof.
  apply (update_only_from_enabled_controls
           (after admin_session)
           (after (admin_session ++ [PressEnter "b" "2"]))).
  - vm_compute. reflexivity.
  - exists [ReqUpdate "b" (Number (JStr "2"))].
    split; [vm_compute; reflexivity|now left].
Defined.

(** A magic link is requested only by the Send button, while nobody is
    signed in and no earlier request is being sent, and for the address
    typed in the input, which is not empty. *)
Theorem otp_only_from_send_button
    (c c' : config) (e : event) (address : string) :
  step c e = Some c' -> issues c c' (ReqOtp address) ->
  e = ClickSend /\ address = emailInput (st c) /\ address <> ""%string /\
  signed_in (st c) = false /\ sending (st c) = false.
Proof.
  intros H Hi. pose proof (issues_requested _ _ _ _ H Hi) as Hin.
  destruct e; simpl in Hin;
    try (destruct Hin as [Hin|[]]; discriminate); try contradiction.
  - destruct u; [destruct Hin as [Hin|[]]; discriminate|contradiction].
  - destruct role; [|contradiction].
    destruct (negb _ && _); [destruct Hin as [Hin|[]]; discriminate|
                              contradiction].
  - destruct error; [contradiction|destruct Hin as [Hin|[]]; discriminate].
  - destruct Hin as [[= <-]|[]]. open_step H.
    apply andb_prop in Hb as [Hs Hb]. rewrite negb_true_iff in Hs, Hb.
    apply orb_false_elim in Hb as [Hsend Hempty].
    repeat split; trivial. intros E. rewrite E in Hempty. discriminate.
Qed.

Lemma otp_only_from_send_button_witness :
  ClickSend = ClickSend /\
  "a@b.org"%string = emailInput (st (after [GetUserResp None;
                                            TypeEmail "a@b.org"])) /\
  "a@b.org"%string <> ""%string /\
  signed_in (st (after [GetUserResp None; TypeEmail "a@b.org"])) = false /\
  sending (st (after [GetUserResp None; TypeEmail "a@b.org"])) = false.
Proof.
  apply (otp_only_from_send_button
           (after [GetUserResp None; TypeEmail "a@b.org"])
           (after [GetUserResp None; TypeEmail "a@b.org"; ClickSend])).
  - vm_compute. reflexivity.
  - exists [ReqOtp "a@b.org"]. split; [vm_compute; reflexivity|now left].
Defined.

Lemma nothing_loaded_within (c : config) :
  reachable_within (fun c => isAdmin (st c) = false) c -> nothing_loaded c.
Proof.
  induction 1 as [_|c e c' R IH Hstep Ha'].
  - repeat split; simpl; intuition discriminate.
  - apply (nothing_loaded_step c c' e); trivial.
    now apply within_holds in R.
Qed.

(** As long as the role has not resolved to admin, the page has sent no
    update to the store. *)
Theorem no_update_before_admin (c : config) :
  reachable_within (fun c => isAdmin (st c) = false) c ->
  forall gid v, ~ In (ReqUpdate gid v) (sent c).
Proof.
  induction 1 as [_|c e c' R IH Hstep Ha']; intros gid v Hin.
  - simpl in Hin. destruct Hin as [Hin|[]]. discriminate.
  - rewrite (step_sent _ _ _ Hstep) in Hin.
    apply in_app_or in Hin as [Hin|Hin]; [now apply (IH gid v)|].
    destruct (update_request_inv _ _ _ _ _ Hstep Hin) as (_ & Hg & _).
    apply nothing_loaded_within in R. destruct R as (E & _).
    unfold has_group in Hg. rewrite E in Hg. discriminate.
Qed.

Lemma no_update_before_admin_witness :
  ~ In (ReqUpdate "a" (of_Z 4))
       (sent (after [GetUserResp (Some plain_user);
                     RoleResp "u-plain" None])).
Proof.
  apply (no_update_before_admin
           (after [GetUserResp (Some plain_user); RoleResp "u-plain" None])).
  apply within_step
    with (c := after [GetUserResp (Some plain_user)])
         (e := RoleResp "u-plain" None);
    [|vm_compute; reflexivity|reflexivity].
  apply within_step with (c := init) (e := GetUserResp (Some plain_user));
    [|vm_compute; reflexivity|reflexivity].
  apply within_init. reflexivity.
Defined.

(** *** The role and the rows *)

(** The answer of the role query sets [isAdmin] to whether the row says
    admin and leaves the rows as they are; it makes the page read the groups
    only when it turns [isAdmin] from false to true: an answer that confirms
    an admin who is already one, and an answer that does not say admin, read
    nothing. *)
Theorem role_answer_reads_only_on_change
    (c c' : config) (uid : string) (role : option string) :
  step c (RoleResp uid role) = Some c' ->
  (isAdmin (st c') = true <-> role = Some "admin"%string) /\
  (issues c c' ReqSelectGroups ->
   isAdmin (st c) = false /\ role = Some "admin"%string) /\
  groups (st c') = groups (st c).
Proof.
  intros H. pose proof (step_sent _ _ _ H) as Hs. simpl in Hs.
  pose proof H as H'. open_step H'.
  match goal with
  | |- context [handle ?k ?c0] =>
      destruct (handle_fields k c0) as (_ & Ea & Eg & _)
  end.
  rewrite Ea, Eg. clear Ea Eg. simpl.
  split; [|split; [|reflexivity]].
  - destruct role as [r|]; [|easy]. rewrite String.eqb_eq.
    split; [now intros ->|now intros [= ->]].
  - intros Hi. apply (issues_inv _ _ _ _ Hs) in Hi.
    destruct role as [r|]; [|contradiction].
    destruct (isAdmin (st c)); simpl in Hi; [contradiction|].
    destruct (String.eqb r "admin") eqn:E; [|contradiction].
    apply String.eqb_eq in E. now subst.
Qed.

Lemma role_answer_reads_only_on_change_witness :
  (isAdmin (st (after (admin_session ++
                       [AuthStateChange; GetUserResp (Some admin_user);
                        RoleResp "u-admin" (Some "admin"%string)]))) = true
   <-> Some "admin"%string = Some "admin"%string) /\
  (issues (after (admin_session ++
                  [AuthStateChange; GetUserResp (Some admin_user)]))
          (after (admin_session ++
                  [AuthStateChange; GetUserResp (Some admin_user);
                   RoleResp "u-admin" (Some "admin"%string)]))
          ReqSelectGroups
   -> isAdmin (st (after (admin_session ++
                          [AuthStateChange; GetUserResp (Some admin_user)])))
      = false /\ Some "admin"%string = Some "admin"%string) /\
  groups (st (after (admin_session ++
                     [AuthStateChange; GetUserResp (Some admin_user);
                      RoleResp "u-admin" (Some "admin"%string)])))
  = groups (st (after (admin_session ++
                       [AuthStateChange; GetUserResp (Some admin_user)]))).
Proof.
  apply (role_answer_reads_only_on_change _ _ "u-admin").
  vm_compute. reflexivity.
Defined.

(** Only the two answers that [refreshAuth] waits for change who is signed
    in and whether that user is an admin: no click, no typing and no answer
    of the store does. *)
Theorem role_changes_only_in_refreshAuth (c c' : config) (e : event) :
  step c e = Some c' ->
  (forall u, e <> GetUserResp u) ->
  (forall uid role, e <> RoleResp uid role) ->
  userEmail (st c') = userEmail (st c) /\ isAdmin (st c') = isAdmin (st c).
Proof.
  intros H Hu Hr.
  destruct e; try (now destruct (Hu u)); try (now destruct (Hr uid role));
    open_step H;
    match goal with
    | |- context [handle ?k ?c0] =>
        destruct (handle_fields k c0) as (-> & -> & _)
    end;
    try destruct error; try destruct saving; now split.
Qed.

Lemma role_changes_only_in_refreshAuth_witness :
  userEmail (st (after (admin_session ++ [ClickSignOut; SignOutDone])))
    = userEmail (st (after (admin_session ++ [ClickSignOut]))) /\
  isAdmin (st (after (admin_session ++ [ClickSignOut; SignOutDone])))
    = isAdmin (st (after (admin_session ++ [ClickSignOut]))).
Proof.
  apply (role_changes_only_in_refreshAuth _ _ SignOutDone).
  - vm_compute. reflexivity.
  - intros u. discriminate.
  - intros uid role. discriminate.
Defined.

(** The displayed rows change only when a load is answered or a sign-out
    completes: starting a save, its answer, and every other event leave them
    as they are. *)
Theorem rows_change_only_by_load_or_sign_out (c c' : config) (e : event) :
  step c e = Some c' ->
  (forall saving data error, e <> LoadResp saving data error) ->
  e <> SignOutDone ->
  groups (st c') = groups (st c).
Proof.
  intros H Hl Hs.
  destruct e; try (now destruct (Hl saving data error)); try (now destruct Hs);
    open_step H;
    match goal with
    | |- context [handle ?k ?c0] =>
        destruct (handle_fields k c0) as (_ & _ & -> & _)
    end;
    try destruct u; try destruct error; reflexivity.
Qed.

Lemma rows_change_only_by_load_or_sign_out_witness :
  groups (st (after (admin_session ++ [ClickSave "a" "4";
                                       UpdateResp "a" (Some "denied"%string)])))
  = groups (st (after (admin_session ++ [ClickSave "a" "4"]))).
Proof.
  apply (rows_change_only_by_load_or_sign_out
           _ _ (UpdateResp "a" (Some "denied"%string))).
  - vm_compute. reflexivity.
  - intros saving data error. discriminate.
  - discriminate.
Defined.

(** *** What is in flight *)

Lemma reachable_ind (P : config -> Prop) :
  P init ->
  (forall c e c', P c -> step c e = Some c' -> P c') ->
  forall c, reachable c -> P c.
Proof.
  intros H0 Hstep c [es Hrun].
  assert (G : forall es c0, P c0 -> run c0 es = Some c -> P c).
  { clear es Hrun. induction es as [|e es IH]; intros c0 Hc0; simpl.
    - now intros [= <-].
    - destruct (step c0 e) as [c1|] eqn:E; [|discriminate].
      apply IH. now apply (Hstep c0 e). }
  now apply (G es init).
Qed.

Lemma task_eqb_sym (t u : task) : task_eqb t u = task_eqb u t.
Proof.
  destruct (task_eqb t u) eqn:E.
  - apply task_eqb_eq in E. subst. symmetry. now apply task_eqb_eq.
  - destruct (task_eqb u t) eqn:E'; [|reflexivity].
    apply task_eqb_eq in E'. subst.
    assert (T : task_eqb t t = true) by now apply task_eqb_eq. congruence.
Qed.

Lemma In_remove_first_other (t u : task) (ts : list task) :
  task_eqb t u = false -> In u ts -> In u (remove_first t ts).
Proof.
  intros N. induction ts as [|v ts IH]; simpl; [trivial|].
  destruct (task_eqb t v) eqn:E.
  - apply task_eqb_eq in E. subst v. intros [->|H]; [|exact H].
    assert (T : task_eqb u u = true) by now apply task_eqb_eq. congruence.
  - intros [->|H]; [now left|right; now apply IH].
Qed.

Lemma filter_remove_first_other (t u : task) (ts : list task) :
  task_eqb t u = false ->
  filter (task_eqb u) (remove_first t ts) = filter (task_eqb u) ts.
Proof.
  intros N. induction ts as [|v ts IH]; simpl; [reflexivity|].
  destruct (task_eqb t v) eqn:E.
  - apply task_eqb_eq in E. subst v.
    rewrite task_eqb_sym in N. now rewrite N.
  - simpl. now rewrite IH.
Qed.

Lemma filter_remove_first_same (t : task) (ts : list task) :
  existsb (task_eqb t) ts = true ->
  List.length (filter (task_eqb t) ts)
  = S (List.length (filter (task_eqb t) (remove_first t ts))).
Proof.
  induction ts as [|v ts IH]; simpl; [discriminate|].
  destruct (task_eqb t v) eqn:E; simpl; [reflexivity|].
  intros H. rewrite E. now apply IH.
Qed.

Ltac expose_goal :=
  cbv [refreshAuth refreshAuth_user refreshAuth_role loadGroups
       loadGroups_resume sendMagicLink sendMagicLink_resume signOut
       signOut_resume savePaidWeeks savePaidWeeks_resume seq skip send await
       on_state setUserEmail setIsAdmin setEmailInput setSending setMsg
       setGroups setLoadingGroups setSavingId in_flight];
  simpl.

Ltac unhandle :=
  first [ rewrite handle_idle by reflexivity
        | rewrite handle_idle_false by reflexivity
        | unfold handle, effects;
          match goal with
          | |- context [if ?b then _ else _] => destruct b
          end ];
  expose_goal.

Ltac split_event e H :=
  destruct e; open_step H;
  try match goal with u : option User |- _ => destruct u end;
  try match goal with error : option string |- _ => destruct error end;
  try match goal with saving : bool |- _ => destruct saving end;
  unhandle.

Ltac keep_task :=
  rewrite ?in_app_iff;
  first [ assumption
        | apply In_remove_first_other; [reflexivity|assumption]
        | left; assumption
        | left; apply In_remove_first_other; [reflexivity|assumption]
        | right; left; reflexivity ].

(** While the page shows its loading mark, a read of the groups is awaiting
    its answer: the mark is never left behind by a load that has ended. *)
Theorem loading_mark_has_load_in_flight (c : config) :
  reachable c ->
  loadingGroups (st c) = true -> exists saving, In (AwaitLoad saving) (pending c).
Proof.
  revert c.
  apply (reachable_ind
           (fun c => loadingGroups (st c) = true ->
                     exists saving, In (AwaitLoad saving) (pending c)));
    [discriminate|].
  intros c e c' IH H.
  split_event e H; intros L; try discriminate;
    try (destruct (IH L) as [b Hload]; exists b; keep_task);
    try (exists false; keep_task); try (exists true; keep_task).
Qed.

Lemma loading_mark_has_load_in_flight_witness :
  exists saving,
    In (AwaitLoad saving)
       (pending (after (admin_session ++ [ClickRefresh; ClickSave "a" "3"]))).
Proof.
  apply loading_mark_has_load_in_flight.
  - exists (admin_session ++ [ClickRefresh; ClickSave "a" "3"]).
    vm_compute. reflexivity.
  - reflexivity.
Defined.

(** While a group is marked as being saved, an update or the reload that
    follows an accepted update is awaiting its answer: the mark, and with it
    the disabled controls, is never left behind by a save that has ended. *)
Theorem saving_mark_has_save_in_flight (c : config) :
  reachable c ->
  forall gid, savingId (st c) = Some gid ->
    In (AwaitUpdate gid) (pending c) \/ In (AwaitLoad true) (pending c).
Proof.
  revert c.
  apply (reachable_ind
           (fun c => forall gid, savingId (st c) = Some gid ->
                     In (AwaitUpdate gid) (pending c) \/
                     In (AwaitLoad true) (pending c)));
    [discriminate|].
  intros c e c' IH H.
  split_event e H; intros g S; try discriminate;
    try (destruct (IH g S) as [Hsave|Hsave]; [left|right]; keep_task);
    try (right; keep_task);
    try (injection S as <-; left; keep_task).
Qed.

Lemma saving_mark_has_save_in_flight_witness :
  In (AwaitUpdate "b")
     (pending (after (admin_session ++ [ClickSave "a" "3"; ClickSave "b" "1";
                                        AuthStateChange]))) \/
  In (AwaitLoad true)
     (pending (after (admin_session ++ [ClickSave "a" "3"; ClickSave "b" "1";
                                        AuthStateChange]))).
Proof.
  apply saving_mark_has_save_in_flight.
  - exists (admin_session ++ [ClickSave "a" "3"; ClickSave "b" "1";
                              AuthStateChange]).
    vm_compute. reflexivity.
  - reflexivity.
Defined.

Lemma otp_count (c : config) :
  reachable c ->
  in_flight AwaitOtp c = if sending (st c) then 1%nat else 0%nat.
Proof.
  revert c.
  apply (reachable_ind
           (fun c => in_flight AwaitOtp c
                     = if sending (st c) then 1%nat else 0%nat));
    [reflexivity|].
  intros c e c' IH H. unfold in_flight in IH.
  split_event e H;
    rewrite ?filter_app, ?length_app,
            ?(filter_remove_first_other _ AwaitOtp) by reflexivity;
    simpl; rewrite ?Nat.add_0_r; trivial.
  - pose proof (filter_remove_first_same _ _ Hp) as E.
    destruct (sending (st c)); lia.
  - pose proof (filter_remove_first_same _ _ Hp) as E.
    destruct (sending (st c)); lia.
  - apply andb_prop in Hb as [_ Hb]. rewrite negb_true_iff in Hb.
    apply orb_false_elim in Hb as [Hs _]. rewrite Hs in IH. lia.
Qed.

(** At most one magic-link request is awaiting its answer at any time, and
    the page shows "Sending..." exactly while one is. *)
Theorem one_magic_link_at_a_time (c : config) :
  reachable c ->
  (in_flight AwaitOtp c <= 1)%nat /\
  (sending (st c) = true <-> In AwaitOtp (pending c)).
Proof.
  intros R. pose proof (otp_count c R) as E. split.
  - destruct (sending (st c)); lia.
  - split.
    + intros S. rewrite S in E. unfold in_flight in E.
      destruct (filter (task_eqb AwaitOtp) (pending c)) as [|t ts] eqn:F;
        [discriminate|].
      assert (Hin : In t (filter (task_eqb AwaitOtp) (pending c)))
        by (rewrite F; now left).
      apply filter_In in Hin as [Hin T]. apply task_eqb_eq in T. now subst.
    + intros Hin. destruct (sending (st c)); [reflexivity|].
      unfold in_flight in E.
      assert (F : In AwaitOtp (filter (task_eqb AwaitOtp) (pending c)))
        by (apply filter_In; split; [exact Hin|reflexivity]).
      destruct (filter (task_eqb AwaitOtp) (pending c)); [contradiction|].
      discriminate.
Qed.

Lemma one_magic_link_at_a_time_witness :
  (in_flight AwaitOtp
     (after [GetUserResp None; TypeEmail "a@b.org"; ClickSend]) <= 1)%nat /\
  (sending (st (after [GetUserResp None; TypeEmail "a@b.org"; ClickSend]))
     = true
   <-> In AwaitOtp
          (pending (after [GetUserResp None; TypeEmail "a@b.org";
                           ClickSend]))).
Proof.
  apply one_magic_link_at_a_time.
  exists [GetUserResp None; TypeEmail "a@b.org"; ClickSend].
  vm_compute. reflexivity.
Defined.

(** *** Losing the session, signing out *)

(** When the identity provider answers that nobody is signed in, the rows
    on display stay where they are, but nothing can be started from them:
    the page accepts no save, no refresh and no sign-out, and no longer
    shows the viewer warning. *)
Theorem lost_session_disables_page (c c' : config) :
  step c (GetUserResp None) = Some c' ->
  groups (st c') = groups (st c) /\
  role_shown (st c') = Anonymous /\
  (forall gid, has_group (st c') gid = true ->
               controls_disabled (st c') gid = true) /\
  (forall gid text, step c' (ClickSave gid text) = None /\
                    step c' (PressEnter gid text) = None) /\
  step c' ClickRefresh = None /\
  step c' ClickSignOut = None.
Proof.
  intros H. open_step H. rewrite handle_idle_false by reflexivity.
  unfold step, guarded, controls_disabled, canEdit, role_shown, signed_in.
  simpl. repeat split; trivial.
  - now rewrite andb_false_r.
  - now rewrite andb_false_r.
Qed.

Lemma lost_session_disables_page_witness :
  groups (st (after (admin_session ++ [AuthStateChange; GetUserResp None])))
    = [group_a; group_b] /\
  step (after (admin_session ++ [AuthStateChange; GetUserResp None]))
       ClickRefresh = None.
Proof.
  destruct (lost_session_disables_page
              (after (admin_session ++ [AuthStateChange]))
              (after (admin_session ++ [AuthStateChange; GetUserResp None])))
    as (Hg & _ & _ & _ & Hr & _).
  - vm_compute. reflexivity.
  - split; [rewrite Hg; reflexivity|exact Hr].
Defined.

(** When a sign-out completes, the rows and the message are cleared, so no
    save can be started; who is signed in and the role are left as they
    were, until [refreshAuth] answers. *)
Theorem sign_out_clears_rows (c c' : config) :
  step c SignOutDone = Some c' ->
  groups (st c') = [] /\ msg (st c') = None /\
  userEmail (st c') = userEmail (st c) /\
  canEdit (st c') = canEdit (st c) /\
  (forall gid text, step c' (ClickSave gid text) = None /\
                    step c' (PressEnter gid text) = None).
Proof.
  intros H. open_step H. rewrite handle_idle by reflexivity.
  now repeat split.
Qed.

Lemma sign_out_clears_rows_witness :
  groups (st (after (admin_session ++ [ClickSignOut; SignOutDone]))) = [] /\
  canEdit (st (after (admin_session ++ [ClickSignOut; SignOutDone]))) = true.
Proof.
  destruct (sign_out_clears_rows
              (after (admin_session ++ [ClickSignOut]))
              (after (admin_session ++ [ClickSignOut; SignOutDone])))
    as (Hg & _ & _ & Hc & _).
  - vm_compute. reflexivity.
  - split; [exact Hg|rewrite Hc; reflexivity].
Defined.

(** *** A save from start to end *)

Lemma save_start_witness :
  canEdit (st (after admin_session)) = true /\
  has_group (st (after admin_session)) "a" = true /\
  msg (st (after (admin_session ++ [ClickSave "a" "3"]))) = None /\
  savingId (st (after (admin_session ++ [ClickSave "a" "3"])))
    = Some "a"%string /\
  groups (st (after (admin_session ++ [ClickSave "a" "3"])))
    = groups (st (after admin_session)) /\
  sent (after (admin_session ++ [ClickSave "a" "3"]))
    = sent (after admin_session) ++ [ReqUpdate "a" (Number (JStr "3"))] /\
  pending (after (admin_session ++ [ClickSave "a" "3"]))
    = pending (after admin_session) ++ [AwaitUpdate "a"] /\
  controls_disabled (st (after (admin_session ++ [ClickSave "a" "3"]))) "a"
    = true.
Proof.
  apply (save_start (after admin_session)
                    (after (admin_session ++ [ClickSave "a" "3"]))
                    "a" "3").
  left. vm_compute. reflexivity.
Defined.

Lemma save_failure_witness :
  msg (st (after (admin_session ++
                  [ClickSave "a" "3"; UpdateResp "a" (Some "denied"%string)])))
    = Some ("Save failed: " ++ "denied")%string /\
  savingId (st (after (admin_session ++
                       [ClickSave "a" "3";
                        UpdateResp "a" (Some "denied"%string)]))) = None /\
  groups (st (after (admin_session ++
                     [ClickSave "a" "3";
                      UpdateResp "a" (Some "denied"%string)])))
    = groups (st (after (admin_session ++ [ClickSave "a" "3"]))) /\
  sent (after (admin_session ++
               [ClickSave "a" "3"; UpdateResp "a" (Some "denied"%string)]))
    = sent (after (admin_session ++ [ClickSave "a" "3"])).
Proof.
  apply (save_failure (after (admin_session ++ [ClickSave "a" "3"])) _ "a").
  vm_compute. reflexivity.
Defined.



(** *** The two pages on the same answer *)

(** Given the same answer of the store, the admin page and the viewer show
    the same rows whenever the answer carries no error or no rows; when the
    store reports an error, both show the same message, but the admin page
    shows the rows that came with it while the viewer shows none. *)
Theorem load_answer_on_both_pages
    (c c' : config) (s : Home.state) (saving : bool)
    (data : option (list GroupRow)) (error : option string) :
  step c (LoadResp saving data error) = Some c' ->
  let s' := Home.loadGroups_resume data error s in
  (error = None \/ data = None -> groups (st c') = Home.groups s') /\
  (error <> None -> msg (st c') = Home.msg s') /\
  groups (st c') = match data with Some rows => rows | None => [] end /\
  loadingGroups (st c') = Home.loading s'.
Proof.
  intros H. open_step H.
  destruct error, saving, data; rewrite handle_idle by reflexivity; simpl;
    repeat split; trivial; try (intros [E|E]; discriminate);
    try (intros E; now destruct E).
Qed.

Lemma load_answer_on_both_pages_witness :
  groups (st (after [GetUserResp (Some admin_user);
                     RoleResp "u-admin" (Some "admin"%string);
                     LoadResp false (Some [group_a])
                              (Some "timeout"%string)]))
    = [group_a] /\
  Home.groups (Home.loadGroups_resume (Some [group_a])
                 (Some "timeout"%string) Home.initial) = [] /\
  msg (st (after [GetUserResp (Some admin_user);
                  RoleResp "u-admin" (Some "admin"%string);
                  LoadResp false (Some [group_a]) (Some "timeout"%string)]))
    = Home.msg (Home.loadGroups_resume (Some [group_a])
                  (Some "timeout"%string) Home.initial).
Proof.
  destruct (load_answer_on_both_pages
              (after [GetUserResp (Some admin_user);
                      RoleResp "u-admin" (Some "admin"%string)])
              (after [GetUserResp (Some admin_user);
                      RoleResp "u-admin" (Some "admin"%string);
                      LoadResp false (Some [group_a])
                               (Some "timeout"%string)])
              Home.initial false (Some [group_a]) (Some "timeout"%string))
    as (_ & Hm & Hg & _).
  - vm_compute. reflexivity.
  - split; [exact Hg|]. split; [reflexivity|]. apply Hm. discriminate.
Defined.

End AdminMore.
